(** * AutoSentença client: task status tracking, pipeline runner and progress

    A shallow embedding of the client of the repository
    (Next.js / React, TypeScript):

    - [StatusCard]  : src/client/src/components/StatusCard.tsx
    - [UploadZone]  : src/client/src/components/UploadZone.tsx
    - [PageSim]     : src/client/src/app/page.tsx (timer-driven run)
    - [PageApi]     : the second version of the page, which calls the
                      backend (processWithAPI, monitorarProgresso)

    React state is modelled by explicit state passing.  Asynchronous
    functions live in a small monad [Async.M] that threads the
    component state, can throw a JavaScript error, asks an oracle for
    the answers of the network, and records a trace: one [Commit] per
    state-setter call and one [Await] per external operation, with the
    state an observer sees while the operation is in flight.

    JavaScript numbers are IEEE 754 doubles: they are modelled by
    Rocq's primitive floats. *)

From Stdlib Require Import ZArith List String Ascii Bool Lia Floats Uint63.
Import ListNotations.

Local Open Scope string_scope.
Local Open Scope list_scope.

(** JavaScript string concatenation and template literals. *)
Infix "+++" := String.append (at level 60, right associativity).

(* ===================================================================== *)
(** * JavaScript values and built-ins *)
(* ===================================================================== *)

Module Js.

(** An [Error] object: [error.name] and [error.message]. *)
Record Error : Type := mkError { name : string; message : string }.

(** [new Error(msg)]. *)
Definition newError (msg : string) : Error :=
  {| name := "Error"; message := msg |}.

(** Truthiness of a string: only the empty string is falsy. *)
Definition truthy (s : string) : bool := negb (s =? "").

(** [v || d] where [v] is a string or [undefined] and [d] a string. *)
Definition or_else (v : option string) (d : string) : string :=
  match v with
  | Some s => if truthy s then s else d
  | None => d
  end.

(** A length or a count as a number.  Array lengths are below 2^32,
    so the conversion is exact. *)
Definition Number_of_nat (n : nat) : float :=
  PrimFloat.of_uint63 (Uint63.of_Z (Z.of_nat n)).

(** [Math.round]: the nearest integer, ties towards +infinity.  The
    result is given as an exact integer; [None] stands for the
    arguments [Math.round] returns unchanged (NaN, +-Infinity).
    A finite double is [v * 2^e] for integers [v] and [e]; for
    [e = -k < 0] its rounding is [floor ((2 * v + 2^k) / 2^(k+1))],
    a division the right shift computes. *)
Definition Math_round (x : float) : option Z :=
  match Prim2SF x with
  | S754_zero _ => Some 0%Z
  | S754_finite s m e =>
      let v := if s then Z.neg m else Z.pos m in
      Some (match e with
            | Z.neg k =>
                Z.shiftr (2 * v + Z.shiftl 1 (Z.pos k)) (Z.pos k + 1)
            | _ => Z.shiftl v e
            end)%Z
  | S754_infinity _ | S754_nan => None
  end.

(** [Math.max] and [Math.min] of two numbers: NaN is contagious and
    +0 is larger than -0. *)
Definition Math_max (a b : float) : float :=
  if PrimFloat.is_nan a || PrimFloat.is_nan b then PrimFloat.nan
  else if PrimFloat.ltb a b then b
  else if PrimFloat.ltb b a then a
  else match PrimFloat.classify a with NZero => b | _ => a end.

Definition Math_min (a b : float) : float :=
  if PrimFloat.is_nan a || PrimFloat.is_nan b then PrimFloat.nan
  else if PrimFloat.ltb a b then a
  else if PrimFloat.ltb b a then b
  else match PrimFloat.classify a with PZero => b | _ => a end.

(** [String.prototype.toLowerCase] on the ASCII letters.  (Of the
    other characters only U+212A lowers to an ASCII letter, "k",
    which no accepted extension contains.) *)
Definition lower (c : ascii) : ascii :=
  let n := nat_of_ascii c in
  if (65 <=? n)%nat && (n <=? 90)%nat then ascii_of_nat (n + 32) else c.

Fixpoint toLowerCase (s : string) : string :=
  match s with
  | EmptyString => EmptyString
  | String c r => String (lower c) (toLowerCase r)
  end.

Fixpoint has_dot (s : string) : bool :=
  match s with
  | EmptyString => false
  | String c r => (c =? ".")%char || has_dot r
  end.

(** [s.split('.').pop()]: what follows the last dot, the whole
    string when it has no dot.  ([split] never returns an empty
    array, so [pop] never returns [undefined] here.) *)
Fixpoint split_dot_pop (s : string) : string :=
  match s with
  | EmptyString => EmptyString
  | String c r =>
      if (c =? ".")%char then split_dot_pop r
      else if has_dot r then split_dot_pop r
      else s
  end.

(** [arr.includes(x)] on an array of strings. *)
Definition includes (arr : list string) (x : string) : bool :=
  existsb (String.eqb x) arr.

End Js.

(* ===================================================================== *)
(** * StatusCard.tsx *)
(* ===================================================================== *)

Module StatusCard.

(** [export type TaskStatus = 'pending' | 'running' | 'completed' | 'error'] *)
Inductive TaskStatus : Type := pending | running | completed | error.

(** [status === status'] *)
Definition TaskStatus_eqb (a b : TaskStatus) : bool :=
  match a, b with
  | pending, pending | running, running
  | completed, completed | error, error => true
  | _, _ => false
  end.

(** [interface Task]; [message?: string] is a string or [undefined]. *)
Record Task : Type := mkTask {
  id : string;
  name : string;
  status : TaskStatus;
  message : option string
}.

(** [tasks.filter(t => t.status === 'completed').length] *)
Definition completedTasks (tasks : list Task) : nat :=
  List.length (filter (fun t => TaskStatus_eqb (status t) completed) tasks).

(** [tasks.length] *)
Definition totalTasks (tasks : list Task) : nat := List.length tasks.

(** [totalTasks > 0 ? (completedTasks / totalTasks) * 100 : 0] *)
Definition progress (tasks : list Task) : float :=
  if (0 <? totalTasks tasks)%nat
  then (Js.Number_of_nat (completedTasks tasks)
          / Js.Number_of_nat (totalTasks tasks) * 100)%float
  else 0%float.

(** The width of the bar: [Math.min(100, Math.max(0, progress))]. *)
Definition barWidth (tasks : list Task) : float :=
  Js.Math_min 100%float (Js.Math_max 0%float (progress tasks)).

(** The percentage of the line
    "Progresso: completedTasks/totalTasks (Math.round(progress)%)". *)
Definition percent (tasks : list Task) : option Z :=
  Js.Math_round (progress tasks).

(** [getStatusText] *)
Definition getStatusText (s : TaskStatus) : string :=
  match s with
  | completed => "Concluído"
  | running => "Executando..."
  | error => "Erro"
  | pending => "Aguardando"
  end.

End StatusCard.

(* ===================================================================== *)
(** * UploadZone.tsx *)
(* ===================================================================== *)

Module UploadZone.

(** The role of an input: ['processo' | 'audiencia']. *)
Inductive FileType : Type := processo | audiencia.

(** What the component reads of a browser [File]. *)
Record File : Type := mkFile { name : string; size : nat }.

(** [interface UploadedFile] *)
Record UploadedFile : Type := mkUploadedFile {
  file : File;
  type : FileType;
  id : string
}.

(** The two [useState] cells of [UploadZone], and the list its parent
    holds: what the last [onFilesChange(allFiles)] call passed
    ([setUploadedFiles] of the page). *)
Record State : Type := mkState {
  processoFile : option UploadedFile;
  audienciaFile : option UploadedFile;
  uploadedFiles : list UploadedFile
}.

Definition initial : State :=
  {| processoFile := None; audienciaFile := None; uploadedFiles := [] |}.

(** [if (x) allFiles.push(x)] *)
Definition push_if (x : option UploadedFile) : list UploadedFile :=
  match x with Some f => [f] | None => [] end.

(** [handleDrop] of [UploadZone]; [rnd] is the identifier drawn by
    [Math.random().toString(36).substr(2, 9)]. *)
Definition handleDrop (f : File) (ty : FileType) (rnd : string)
    (st : State) : State :=
  let newFile := {| file := f; type := ty; id := rnd |} in
  match ty with
  | processo =>
      {| processoFile := Some newFile;
         audienciaFile := audienciaFile st;
         uploadedFiles := [newFile] ++ push_if (audienciaFile st) |}
  | audiencia =>
      {| processoFile := processoFile st;
         audienciaFile := Some newFile;
         uploadedFiles := push_if (processoFile st) ++ [newFile] |}
  end.

(** [removeProcessoFile] and [removeAudienciaFile] *)
Definition removeProcessoFile (st : State) : State :=
  {| processoFile := None;
     audienciaFile := audienciaFile st;
     uploadedFiles := push_if (audienciaFile st) |}.

Definition removeAudienciaFile (st : State) : State :=
  {| processoFile := processoFile st;
     audienciaFile := None;
     uploadedFiles := push_if (processoFile st) |}.

(** [validateFile] of the drop zone of role [ty]. *)
Definition validateFile (ty : FileType) (f : File) : bool :=
  let extension := Js.toLowerCase (Js.split_dot_pop (name f)) in
  if negb (Js.truthy extension) then false
  else
    let validExtensions :=
      match ty with
      | processo => ["pdf"; "docx"; "doc"]
      | audiencia => ["mp4"; "mp3"; "wav"; "m4a"; "aac"]
      end in
    Js.includes validExtensions extension.

(** What the user can do: drop or select files on the zone of a role
    ([handleDrop] and [handleFileInput] of [ModernDropZone] treat the
    list alike), or press "Remover" of a zone. *)
Inductive Action : Type :=
| Drop (ty : FileType) (files : list File) (rnd : string)
| Remove (ty : FileType).

(** [ModernDropZone]: only the first file is taken, and it reaches
    [onDrop] only when [validateFile] accepts it. *)
Definition act (st : State) (a : Action) : State :=
  match a with
  | Drop ty [] _ => st
  | Drop ty (droppedFile :: _) rnd =>
      if validateFile ty droppedFile
      then handleDrop droppedFile ty rnd st
      else st
  | Remove processo => removeProcessoFile st
  | Remove audiencia => removeAudienciaFile st
  end.

Definition run (actions : list Action) : State :=
  fold_left act actions initial.

Definition FileType_eqb (a b : FileType) : bool :=
  match a, b with
  | processo, processo | audiencia, audiencia => true
  | _, _ => false
  end.

(** The files of one role in a list. *)
Definition ofRole (ty : FileType) (l : list UploadedFile)
    : list UploadedFile :=
  filter (fun u => FileType_eqb (type u) ty) l.

(** The cell of a role. *)
Definition slot (ty : FileType) (st : State) : option UploadedFile :=
  match ty with
  | processo => processoFile st
  | audiencia => audienciaFile st
  end.

End UploadZone.

(* ===================================================================== *)
(** * Asynchronous functions over a component state *)
(* ===================================================================== *)

Module Async.

(** The body of a successful backend answer: [result.message]. *)
Record Result : Type := mkResult { message : option string }.

(** A [Response]: [response.ok], [response.status],
    [response.statusText], and what [await response.text()] and
    [await response.json()] give (they can reject). *)
Record Response : Type := mkResponse {
  ok : bool;
  status : nat;
  statusText : string;
  text : Js.Error + string;
  json : Js.Error + Result
}.

(** [await fetch(url, ...)] rejects or resolves to a response. *)
Inductive FetchOutcome : Type :=
| Rejected (e : Js.Error)
| Resolved (r : Response).

(** External operations an asynchronous function waits for. *)
Inductive Op : Type :=
| Fetch (url : string)
| Timeout (ms : N).

Section WithState.

Context {S : Type}.

(** What an observer of the component can see, in order. *)
Inductive Event : Type :=
| Commit (s : S)
| Await (op : Op) (s : S).

(** The component state, the number of requests sent so far, and
    the answers of the network to the successive requests. *)
Record World : Type := mkWorld {
  state : S;
  calls : nat;
  network : nat -> FetchOutcome
}.

Inductive Outcome (A : Type) : Type :=
| Returned (a : A)
| Threw (e : Js.Error).

Definition M (A : Type) : Type :=
  World -> Outcome A * World * list Event.

Definition ret {A} (a : A) : M A :=
  fun w => (Returned A a, w, []).

Definition bind {A B} (m : M A) (f : A -> M B) : M B :=
  fun w =>
    match m w with
    | (Returned _ a, w1, t1) =>
        let '(r, w2, t2) := f a w1 in (r, w2, t1 ++ t2)
    | (Threw _ e, w1, t1) => (Threw B e, w1, t1)
    end.

(** [throw e] *)
Definition throw {A} (e : Js.Error) : M A :=
  fun w => (Threw A e, w, []).

(** [try { m } catch (error) { h error }] *)
Definition try_catch {A} (m : M A) (h : Js.Error -> M A) : M A :=
  fun w =>
    match m w with
    | (Threw _ e, w1, t1) =>
        let '(r, w2, t2) := h e w1 in (r, w2, t1 ++ t2)
    | done => done
    end.

(** [try { m } finally { f }] *)
Definition try_finally {A} (m : M A) (f : M unit) : M A :=
  fun w =>
    let '(r, w1, t1) := m w in
    match f w1 with
    | (Returned _ _, w2, t2) => (r, w2, t1 ++ t2)
    | (Threw _ e, w2, t2) => (Threw A e, w2, t1 ++ t2)
    end.

(** A state setter called with an updater function. *)
Definition setState (f : S -> S) : M unit :=
  fun w =>
    let s' := f (state w) in
    (Returned unit tt,
     {| state := s'; calls := calls w; network := network w |},
     [Commit s']).

(** [await fetch(url, ...)] *)
Definition fetch (url : string) : M Response :=
  fun w =>
    let w' := {| state := state w; calls := Datatypes.S (calls w);
                 network := network w |} in
    match network w (calls w) with
    | Rejected e => (Threw Response e, w', [Await (Fetch url) (state w)])
    | Resolved r => (Returned Response r, w', [Await (Fetch url) (state w)])
    end.

(** [await new Promise(resolve => setTimeout(resolve, ms))] *)
Definition sleep (ms : N) : M unit :=
  fun w => (Returned unit tt, w, [Await (Timeout ms) (state w)]).

(** [await p] for a promise that is already settled. *)
Definition await {A} (p : Js.Error + A) : M A :=
  match p with
  | inl e => throw e
  | inr a => ret a
  end.

(** [for (const x of xs) { body x }] *)
Fixpoint forOf {X} (xs : list X) (body : X -> M unit) : M unit :=
  match xs with
  | [] => ret tt
  | x :: rest => bind (body x) (fun _ => forOf rest body)
  end.

(** The states of a trace, in order. *)
Definition snapshots (t : list Event) : list S :=
  map (fun e => match e with Commit s => s | Await _ s => s end) t.

(** The operations started in a trace, in order. *)
Fixpoint invoked (t : list Event) : list Op :=
  match t with
  | [] => []
  | Commit _ :: r => invoked r
  | Await op _ :: r => op :: invoked r
  end.

End WithState.

Arguments Event : clear implicits.
Arguments World : clear implicits.
Arguments M : clear implicits.
Arguments Outcome : clear implicits.
Arguments Returned {A} a.
Arguments Threw {A} e.

End Async.

Declare Scope async_scope.
Delimit Scope async_scope with async.
Notation "x <- m ;; k" := (Async.bind m (fun x => k))
  (at level 61, m at next level, right associativity) : async_scope.
Notation "m ;; k" := (Async.bind m (fun _ => k))
  (at level 61, right associativity) : async_scope.

Local Open Scope async_scope.

(* ===================================================================== *)
(** * The status update shared by both pages *)
(* ===================================================================== *)

Module TaskList.

Import StatusCard.

(** The updater [updateTaskStatus] hands to [setTasks], written the
    same way in both pages:
    [prevTasks.map(task =>
       task.id === taskId ? { ...task, status, message } : task)].
    A call without the third argument has [message = undefined]. *)
Definition update (taskId : string) (status : TaskStatus)
    (message : option string) (prevTasks : list Task) : list Task :=
  map (fun task =>
         if id task =? taskId
         then {| id := id task; name := name task;
                 status := status; message := message |}
         else task)
      prevTasks.

(** The task the update puts in place of [task]. *)
Definition updated (taskId : string) (status : TaskStatus)
    (message : option string) (task : Task) : Task :=
  if id task =? taskId
  then {| id := id task; name := name task;
          status := status; message := message |}
  else task.

(** [tasks.every(t => t.status === 'completed')] *)
Definition everyCompleted (tasks : list Task) : bool :=
  forallb (fun t => TaskStatus_eqb (status t) completed) tasks.

End TaskList.

(* ===================================================================== *)
(** * app/page.tsx: the run driven by timers *)
(* ===================================================================== *)

Module PageSim.

Import Async StatusCard.

(** The [useState] cells of [Home]. *)
Record State : Type := mkState {
  uploadedFiles : list UploadZone.UploadedFile;
  isProcessing : bool;
  tasks : list Task;
  currentStep : string
}.

Definition initial : State :=
  {| uploadedFiles := []; isProcessing := false;
     tasks := []; currentStep := "" |}.

Definition setIsProcessing (b : bool) : M State unit :=
  setState (fun s =>
    {| uploadedFiles := uploadedFiles s; isProcessing := b;
       tasks := tasks s; currentStep := currentStep s |}).

Definition setTasks (f : list Task -> list Task) : M State unit :=
  setState (fun s =>
    {| uploadedFiles := uploadedFiles s; isProcessing := isProcessing s;
       tasks := f (tasks s); currentStep := currentStep s |}).

Definition setCurrentStep (label : string) : M State unit :=
  setState (fun s =>
    {| uploadedFiles := uploadedFiles s; isProcessing := isProcessing s;
       tasks := tasks s; currentStep := label |}).

Definition newTasks : list Task :=
  [ {| id := "1"; name := "Análise de documentos";
       status := pending; message := None |};
    {| id := "2"; name := "Transcrição de áudio";
       status := pending; message := None |};
    {| id := "3"; name := "Extração de informações";
       status := pending; message := None |};
    {| id := "4"; name := "Consulta de jurisprudência";
       status := pending; message := None |};
    {| id := "5"; name := "Geração da sentença";
       status := pending; message := None |} ].

Definition initializeTasks : M State unit :=
  setTasks (fun _ => newTasks).

Definition updateTaskStatus (taskId : string) (status : TaskStatus)
    (message : option string) : M State unit :=
  setTasks (TaskList.update taskId status message).

Module Step.
Record t : Type := mk { id : string; name : string; duration : N }.
End Step.

Definition steps : list Step.t :=
  [ Step.mk "1" "Analisando documentos..." 2000%N;
    Step.mk "2" "Transcrevendo áudio..." 3000%N;
    Step.mk "3" "Extraindo informações..." 2500%N;
    Step.mk "4" "Consultando jurisprudência..." 2000%N;
    Step.mk "5" "Gerando sentença..." 3000%N ].

(** One iteration of the [for (const step of steps)] statement of
    [simulateProcessing]. *)
Definition iteration (step : Step.t) : M State unit :=
  setCurrentStep (Step.name step) ;;
  updateTaskStatus (Step.id step) running (Some (Step.name step)) ;;
  sleep (Step.duration step) ;;
  updateTaskStatus (Step.id step) completed (Some "Concluído").

(** The [for] statement, over any list of steps. *)
Definition simulateLoop (steps : list Step.t) : M State unit :=
  forOf steps iteration.

Definition simulateProcessing : M State unit :=
  simulateLoop steps ;;
  setCurrentStep "Sentença gerada com sucesso! 🎉".

Definition handleProcess : M State unit :=
  setIsProcessing true ;;
  initializeTasks ;;
  try_finally
    (try_catch simulateProcessing (fun _ => ret tt))
    (setIsProcessing false).

(** The condition under which the "Sentença Gerada!" section is
    rendered:
    [tasks.length > 0 && tasks.every(t => t.status === 'completed')]. *)
Definition resultsSection (s : State) : bool :=
  (0 <? List.length (tasks s))%nat && TaskList.everyCompleted (tasks s).

End PageSim.

(* ===================================================================== *)
(** * The page that calls the backend *)
(* ===================================================================== *)

Module PageApi.

Import Async StatusCard.

Definition API_URL : string := "http://localhost:8000".

(** The [useState] cells of [Home]. *)
Record State : Type := mkState {
  uploadedFiles : list UploadZone.UploadedFile;
  isProcessing : bool;
  tasks : list Task;
  currentStep : string;
  caseId : string
}.

Definition initial : State :=
  {| uploadedFiles := []; isProcessing := false;
     tasks := []; currentStep := ""; caseId := "" |}.

Definition setIsProcessing (b : bool) : M State unit :=
  setState (fun s =>
    {| uploadedFiles := uploadedFiles s; isProcessing := b;
       tasks := tasks s; currentStep := currentStep s;
       caseId := caseId s |}).

Definition setTasks (f : list Task -> list Task) : M State unit :=
  setState (fun s =>
    {| uploadedFiles := uploadedFiles s; isProcessing := isProcessing s;
       tasks := f (tasks s); currentStep := currentStep s;
       caseId := caseId s |}).

Definition setCurrentStep (label : string) : M State unit :=
  setState (fun s =>
    {| uploadedFiles := uploadedFiles s; isProcessing := isProcessing s;
       tasks := tasks s; currentStep := label;
       caseId := caseId s |}).

Definition setCaseId (c : string) : M State unit :=
  setState (fun s =>
    {| uploadedFiles := uploadedFiles s; isProcessing := isProcessing s;
       tasks := tasks s; currentStep := currentStep s;
       caseId := c |}).

Definition newTasks : list Task :=
  [ {| id := "0"; name := "Upload de arquivos";
       status := pending; message := None |};
    {| id := "1"; name := "Transcrição de áudio";
       status := pending; message := None |};
    {| id := "2"; name := "Processamento com Gemini";
       status := pending; message := None |};
    {| id := "3"; name := "Geração da sentença";
       status := pending; message := None |} ].

Definition initializeTasks : M State unit :=
  setTasks (fun _ => newTasks).

Definition updateTaskStatus (taskId : string) (status : TaskStatus)
    (message : option string) : M State unit :=
  setTasks (TaskList.update taskId status message).

Module Step.
Record t : Type := mk { id : string; name : string; endpoint : string }.
End Step.

Definition steps : list Step.t :=
  [ Step.mk "1" "Transcrevendo áudio..." "step1-transcribe";
    Step.mk "2" "Processando com Gemini..." "step2-process";
    Step.mk "3" "Gerando sentença com Claude..." "step3-generate" ].

(** The request of a step:
    [`${API_URL}/${step.endpoint}/${uploadedCaseId}`]. *)
Definition url (step : Step.t) (uploadedCaseId : string) : string :=
  API_URL +++ "/" +++ Step.endpoint step +++ "/" +++ uploadedCaseId.

(** The body of the [try] block of one iteration. *)
Definition tryStep (step : Step.t) (uploadedCaseId : string)
    : M State unit :=
  response <- fetch (url step uploadedCaseId) ;;
  (if negb (ok response)
   then errorText <- await (text response) ;;
        throw (Js.newError
                 (Step.name step +++ " falhou: " +++ statusText response))
   else ret tt) ;;
  result <- await (json response) ;;
  updateTaskStatus (Step.id step) completed
    (Some (Js.or_else (Async.message result) "Concluído")).

(** One iteration of the [for (const step of steps)] statement of
    [processWithAPI]. *)
Definition iteration (uploadedCaseId : string) (step : Step.t)
    : M State unit :=
  setCurrentStep (Step.name step) ;;
  updateTaskStatus (Step.id step) running (Some (Step.name step)) ;;
  try_catch
    (tryStep step uploadedCaseId)
    (fun error =>
       updateTaskStatus (Step.id step) StatusCard.error
         (Some ("Erro: " +++ Js.message error)) ;;
       throw error).

(** The [for] statement, over any list of steps. *)
Definition processLoop (steps : list Step.t) (uploadedCaseId : string)
    : M State unit :=
  forOf steps (iteration uploadedCaseId).

Definition processWithAPI (uploadedCaseId : string) : M State unit :=
  processLoop steps uploadedCaseId ;;
  setCurrentStep "Sentença gerada com sucesso! 🎉".

(** [monitorarProgresso]: progress guessed from elapsed time. *)
Definition monitorarProgresso (caseId : string) : M State unit :=
  setCurrentStep "🔄 Pipeline automático em execução..." ;;
  updateTaskStatus "1" running (Some "Transcrevendo áudio...") ;;
  sleep 60000%N ;;
  updateTaskStatus "1" completed (Some "Transcrição concluída") ;;
  updateTaskStatus "2" running (Some "Processando com Gemini...") ;;
  sleep 60000%N ;;
  updateTaskStatus "2" completed (Some "Processamento Gemini concluído") ;;
  updateTaskStatus "3" running (Some "Gerando sentença com Claude...") ;;
  sleep 30000%N ;;
  updateTaskStatus "3" completed (Some "Sentença gerada") ;;
  setCurrentStep "🎉 Pipeline automático concluído!".

(** The condition under which the section with the two buttons that
    open [`${API_URL}/download/${caseId}/sentenca`] is rendered:
    [tasks.length > 0 && tasks.every(t => t.status === 'completed')
     && caseId]. *)
Definition resultsSection (s : State) : bool :=
  (0 <? List.length (tasks s))%nat
  && TaskList.everyCompleted (tasks s)
  && Js.truthy (caseId s).

(** The address both buttons open. *)
Definition downloadUrl (s : State) : string :=
  API_URL +++ "/download/" +++ caseId s +++ "/sentenca".

End PageApi.

(* ===================================================================== *)
(** * Vocabulary of the statements *)
(* ===================================================================== *)

Module Spec.

Import Async StatusCard.

(** The number of tasks in a given status, counted one by one. *)
Fixpoint countStatus (st : TaskStatus) (tasks : list Task) : nat :=
  match tasks with
  | [] => 0
  | t :: rest =>
      (if TaskStatus_eqb (status t) st then 1 else 0) + countStatus st rest
  end.

(** [round(100 * c / t)] in exact arithmetic, a tie going up,
    clamped to [0, 100]; 0 when [t = 0]. *)
Definition exactPercent (c t : nat) : Z :=
  match t with
  | O => 0
  | _ => Z.min 100 (Z.max 0
           ((200 * Z.of_nat c + Z.of_nat t) / (2 * Z.of_nat t)))
  end%Z.

(** [progress] of [StatusCard] for [c] completed tasks out of [t], as
    a function of the two counts, and the percentage shown for it. *)
Definition progressOf (c t : nat) : float :=
  if (0 <? t)%nat
  then (Js.Number_of_nat c / Js.Number_of_nat t * 100)%float
  else 0%float.

Definition percentOf (c t : nat) : option Z :=
  Js.Math_round (progressOf c t).

(** Checks by evaluation, for every total up to a bound and every
    count of completed tasks: the percentage is the exact one and
    the clamping of the bar changes nothing ([agreesAt]); the
    percentage is in range and does not fall when one more task is
    completed ([risesAt]). *)
Definition agreesAt (t c : nat) : bool :=
  match percentOf c t with
  | Some p =>
      (p =? exactPercent c t)%Z
      && PrimFloat.eqb
           (Js.Math_min 100%float (Js.Math_max 0%float (progressOf c t)))
           (progressOf c t)
  | None => false
  end.

Definition agreesUpTo (bound : nat) : bool :=
  forallb (fun t => forallb (agreesAt t) (seq 0 (S t))) (seq 0 (S bound)).

Definition risesAt (t c : nat) : bool :=
  match percentOf c t, percentOf (S c) t with
  | Some p, Some q => (0 <=? p)%Z && (p <=? q)%Z && (q <=? 100)%Z
  | _, _ => false
  end.

Definition risesUpTo (bound : nat) : bool :=
  forallb (fun t => forallb (risesAt t) (seq 0 t)) (seq 0 (S bound)).

(** One percentage is defined and not above the next. *)
Definition percent_le (ts ts' : list Task) : Prop :=
  exists p q : Z,
    percent ts = Some p /\ percent ts' = Some q /\ (0 <= p <= q)%Z /\ (q <= 100)%Z.

(** Every element of a sequence is related to the next one. *)
Fixpoint chain {A} (R : A -> A -> Prop) (a : A) (l : list A) : Prop :=
  match l with
  | [] => True
  | b :: rest => R a b /\ chain R b rest
  end.

(** The status changes of the state machine
    pending -> running -> completed | error. *)
Definition forward (a b : TaskStatus) : bool :=
  match a, b with
  | pending, running | running, completed | running, error => true
  | _, _ => false
  end.

(** A task between two successive states: the same task, either
    untouched or moved one step forward. *)
Definition task_step (t t' : Task) : Prop :=
  id t' = id t /\ name t' = name t /\
  (t' = t \/ forward (status t) (status t') = true).

(** Two successive states of a page: position by position the same
    tasks, each untouched or moved one step forward. *)
Definition forwardSim (a b : PageSim.State) : Prop :=
  Forall2 task_step (PageSim.tasks a) (PageSim.tasks b).

Definition forwardApi (a b : PageApi.State) : Prop :=
  Forall2 task_step (PageApi.tasks a) (PageApi.tasks b).

(** Two successive states of a page: the percentage shown does not
    fall. *)
Definition risingSim (a b : PageSim.State) : Prop :=
  percent_le (PageSim.tasks a) (PageSim.tasks b).

Definition risingApi (a b : PageApi.State) : Prop :=
  percent_le (PageApi.tasks a) (PageApi.tasks b).

(** What every reachable state of [UploadZone] satisfies: the list
    handed to the page is the cell of the document followed by the
    cell of the recording, and each cell holds a file of its role. *)
Definition consistent (st : UploadZone.State) : Prop :=
  UploadZone.uploadedFiles st
  = UploadZone.push_if (UploadZone.processoFile st)
    ++ UploadZone.push_if (UploadZone.audienciaFile st) /\
  (forall ty u, UploadZone.slot ty st = Some u -> UploadZone.type u = ty).

(** What the [try] block of a step makes of the answer of the
    network: the error it throws or the body it reads. *)
Definition attempt (step : PageApi.Step.t) (answer : FetchOutcome)
    : Js.Error + Result :=
  match answer with
  | Rejected e => inl e
  | Resolved r =>
      if ok r then json r
      else match text r with
           | inl e => inl e
           | inr _ => inl (Js.newError
                             (PageApi.Step.name step +++ " falhou: "
                                +++ statusText r))
           end
  end.

(** The outcomes of successive steps, the first one answered by
    request number [n]. *)
Fixpoint attempts (steps : list PageApi.Step.t)
    (net : nat -> FetchOutcome) (n : nat) : list (Js.Error + Result) :=
  match steps with
  | [] => []
  | s :: rest => attempt s (net n) :: attempts rest net (S n)
  end.

(** The requests of a list of steps. *)
Definition requests (steps : list PageApi.Step.t) (cid : string)
    : list Op :=
  map (fun s => Fetch (PageApi.url s cid)) steps.

(** The states one iteration of [processLoop] goes through: the
    label set, the task marked running, and then the task completed
    or in error. *)
Definition apiLabelled (step : PageApi.Step.t) (s : PageApi.State)
    : PageApi.State :=
  {| PageApi.uploadedFiles := PageApi.uploadedFiles s;
     PageApi.isProcessing := PageApi.isProcessing s;
     PageApi.tasks := PageApi.tasks s;
     PageApi.currentStep := PageApi.Step.name step;
     PageApi.caseId := PageApi.caseId s |}.

Definition apiSettled (step : PageApi.Step.t) (st : TaskStatus)
    (msg : string) (s : PageApi.State) : PageApi.State :=
  {| PageApi.uploadedFiles := PageApi.uploadedFiles s;
     PageApi.isProcessing := PageApi.isProcessing s;
     PageApi.tasks :=
       TaskList.update (PageApi.Step.id step) st (Some msg) (PageApi.tasks s);
     PageApi.currentStep := PageApi.currentStep s;
     PageApi.caseId := PageApi.caseId s |}.

Definition apiStarted (step : PageApi.Step.t) (s : PageApi.State)
    : PageApi.State :=
  apiSettled step running (PageApi.Step.name step) (apiLabelled step s).

Definition apiCompleted (step : PageApi.Step.t) (res : Result)
    (s : PageApi.State) : PageApi.State :=
  apiSettled step completed (Js.or_else (Async.message res) "Concluído")
    (apiStarted step s).

Definition apiFailed (step : PageApi.Step.t) (e : Js.Error)
    (s : PageApi.State) : PageApi.State :=
  apiSettled step error ("Erro: " +++ Js.message e) (apiStarted step s).

(** The state and the trace after successive successful steps. *)
Fixpoint apiAfter (done : list (PageApi.Step.t * Result))
    (s : PageApi.State) : PageApi.State :=
  match done with
  | [] => s
  | (step, res) :: rest => apiAfter rest (apiCompleted step res s)
  end.

Fixpoint apiTrace (done : list (PageApi.Step.t * Result)) (cid : string)
    (s : PageApi.State) : list (Event PageApi.State) :=
  match done with
  | [] => []
  | (step, res) :: rest =>
      [ Commit (apiLabelled step s);
        Commit (apiStarted step s);
        Await (Fetch (PageApi.url step cid)) (apiStarted step s);
        Commit (apiCompleted step res s) ]
      ++ apiTrace rest cid (apiCompleted step res s)
  end.

(** The timer-driven page after [setIsProcessing(true)] and
    [initializeTasks()], where its run starts. *)
Definition simReady (s : PageSim.State) : PageSim.State :=
  {| PageSim.uploadedFiles := PageSim.uploadedFiles s;
     PageSim.isProcessing := true;
     PageSim.tasks := PageSim.newTasks;
     PageSim.currentStep := PageSim.currentStep s |}.

(** What the successive successful steps make of one task. *)
Fixpoint settle (done : list (PageApi.Step.t * Result)) (t : Task) : Task :=
  match done with
  | [] => t
  | (step, res) :: rest =>
      settle rest
        (TaskList.updated (PageApi.Step.id step) completed
           (Some (Js.or_else (Async.message res) "Concluído"))
           (TaskList.updated (PageApi.Step.id step) running
              (Some (PageApi.Step.name step)) t))
  end.

(** The same for [simulateLoop]. *)
Definition simLabelled (step : PageSim.Step.t) (s : PageSim.State)
    : PageSim.State :=
  {| PageSim.uploadedFiles := PageSim.uploadedFiles s;
     PageSim.isProcessing := PageSim.isProcessing s;
     PageSim.tasks := PageSim.tasks s;
     PageSim.currentStep := PageSim.Step.name step |}.

Definition simSettled (step : PageSim.Step.t) (st : TaskStatus)
    (msg : string) (s : PageSim.State) : PageSim.State :=
  {| PageSim.uploadedFiles := PageSim.uploadedFiles s;
     PageSim.isProcessing := PageSim.isProcessing s;
     PageSim.tasks :=
       TaskList.update (PageSim.Step.id step) st (Some msg) (PageSim.tasks s);
     PageSim.currentStep := PageSim.currentStep s |}.

Definition simStarted (step : PageSim.Step.t) (s : PageSim.State)
    : PageSim.State :=
  simSettled step running (PageSim.Step.name step) (simLabelled step s).

Definition simCompleted (step : PageSim.Step.t) (s : PageSim.State)
    : PageSim.State :=
  simSettled step completed "Concluído" (simStarted step s).

Fixpoint simAfter (steps : list PageSim.Step.t) (s : PageSim.State)
    : PageSim.State :=
  match steps with
  | [] => s
  | step :: rest => simAfter rest (simCompleted step s)
  end.

Fixpoint simTrace (steps : list PageSim.Step.t) (s : PageSim.State)
    : list (Event PageSim.State) :=
  match steps with
  | [] => []
  | step :: rest =>
      [ Commit (simLabelled step s);
        Commit (simStarted step s);
        Await (Timeout (PageSim.Step.duration step)) (simStarted step s);
        Commit (simCompleted step s) ]
      ++ simTrace rest (simCompleted step s)
  end.

(** The message a completed step records for a result. *)
Definition completedMessage (res : Result) : string :=
  match Async.message res with
  | Some m => if m =? "" then "Concluído" else m
  | None => "Concluído"
  end.

End Spec.

(* ===================================================================== *)
(** * Concrete inputs of the examples *)
(* ===================================================================== *)

Module Example.

Import Async StatusCard.

Definition doneTask : Task :=
  {| id := "a"; name := "A"; status := completed; message := None |}.
Definition waitingTask : Task :=
  {| id := "b"; name := "B"; status := pending; message := None |}.
Definition failedTask : Task :=
  {| id := "c"; name := "C"; status := error; message := Some "Erro" |}.

(** A backend that answers every request with 200 and [body]. *)
Definition answer (body : Result) : FetchOutcome :=
  Resolved {| ok := true; Async.status := 200; statusText := "OK";
              text := inr ""; json := inr body |}.

(** The network is down from request number [n] on. *)
Definition networkError : Js.Error :=
  {| Js.name := "TypeError"; Js.message := "network error" |}.

Definition downFrom (n : nat) (k : nat) : FetchOutcome :=
  if (k <? n)%nat
  then answer {| Async.message := Some "ok" |}
  else Rejected networkError.

(** The first answer carries an empty message, the others none. *)
Definition emptyMessage (k : nat) : FetchOutcome :=
  match k with
  | O => answer {| Async.message := Some "" |}
  | _ => answer {| Async.message := None |}
  end.

(** The page right after [initializeTasks], for case "abc". *)
Definition apiStart (net : nat -> FetchOutcome) : World PageApi.State :=
  {| state := {| PageApi.uploadedFiles := [];
                 PageApi.isProcessing := true;
                 PageApi.tasks := PageApi.newTasks;
                 PageApi.currentStep := "";
                 PageApi.caseId := "abc" |};
     calls := 0;
     network := net |}.

Definition simStart : World PageSim.State :=
  {| state := {| PageSim.uploadedFiles := [];
                 PageSim.isProcessing := true;
                 PageSim.tasks := PageSim.newTasks;
                 PageSim.currentStep := "" |};
     calls := 0;
     network := downFrom 0 |}.

(** A page whose run is over: every task completed. *)
Definition apiDone : World PageApi.State :=
  {| state := {| PageApi.uploadedFiles := [];
                 PageApi.isProcessing := false;
                 PageApi.tasks :=
                   map (fun t => {| id := id t; name := name t;
                                    status := completed;
                                    message := Some "Concluído" |})
                       PageApi.newTasks;
                 PageApi.currentStep := "Sentença gerada com sucesso! 🎉";
                 PageApi.caseId := "abc" |};
     calls := 3;
     network := downFrom 3 |}.

(** A document and a recording are uploaded; a second document
    follows. *)
Definition firstDocument : UploadZone.File :=
  {| UploadZone.name := "processo.pdf"; UploadZone.size := 1000 |}.
Definition recording : UploadZone.File :=
  {| UploadZone.name := "audiencia.MP3"; UploadZone.size := 5000 |}.
Definition secondDocument : UploadZone.File :=
  {| UploadZone.name := "processo.v2.docx"; UploadZone.size := 1200 |}.

Definition twoUploads : list UploadZone.Action :=
  [ UploadZone.Drop UploadZone.processo [firstDocument] "id1";
    UploadZone.Drop UploadZone.audiencia [recording] "id2" ].

End Example.

(* ===================================================================== *)
(** * The rest of the components *)
(* ===================================================================== *)

Module JsString.

(** [s.startsWith(sub)] and [s.includes(sub)] on strings. *)
Fixpoint startsWith (sub s : string) : bool :=
  match sub, s with
  | EmptyString, _ => true
  | String a sub', String b s' => (a =? b)%char && startsWith sub' s'
  | String _ _, EmptyString => false
  end.

Fixpoint includes (sub s : string) : bool :=
  startsWith sub s
  || match s with
     | EmptyString => false
     | String _ s' => includes sub s'
     end.

End JsString.

(** What the pages and [UploadZone] derive from the retained files. *)
Module Views.

(** [uploadedFiles.length > 0] *)
Definition hasFiles (uploadedFiles : list UploadZone.UploadedFile) : bool :=
  (0 <? List.length uploadedFiles)%nat.

(** [uploadedFiles.some(f => f.type === 'processo')] *)
Definition hasProcesso (uploadedFiles : list UploadZone.UploadedFile) : bool :=
  existsb (fun f => UploadZone.FileType_eqb (UploadZone.type f)
                      UploadZone.processo) uploadedFiles.

(** [uploadedFiles.some(f => f.type === 'audiencia')] *)
Definition hasAudiencia (uploadedFiles : list UploadZone.UploadedFile) : bool :=
  existsb (fun f => UploadZone.FileType_eqb (UploadZone.type f)
                      UploadZone.audiencia) uploadedFiles.

(** The [disabled] property the pages give [ProcessButton]:
    [!hasFiles || isProcessing]. *)
Definition disabled (uploadedFiles : list UploadZone.UploadedFile)
    (isProcessing : bool) : bool :=
  negb (hasFiles uploadedFiles) || isProcessing.

(** A cell of [UploadZone] as a condition: [null] is falsy. *)
Definition present (x : option UploadZone.UploadedFile) : bool :=
  match x with Some _ => true | None => false end.

(** The "Status dos Arquivos" panel of [UploadZone] is rendered when
    [(processoFile || audienciaFile)]. *)
Definition statusPanel (st : UploadZone.State) : bool :=
  present (UploadZone.processoFile st) || present (UploadZone.audienciaFile st).

(** Inside it, the hint to add a document is rendered when
    [!processoFile]. *)
Definition documentHint (st : UploadZone.State) : bool :=
  statusPanel st && negb (present (UploadZone.processoFile st)).

End Views.

(* ===================================================================== *)
(** * uploadFiles and handleProcess of the page that calls the backend *)
(* ===================================================================== *)

Module PageApiRun.

Import Async StatusCard.

(** Reading the current value of the state cells. *)
Definition getState {S : Type} : M S S :=
  fun w => (Returned (state w), w, []).

(** The fields [uploadedFiles.forEach] appends to the [FormData], in
    order: [formData.append('processo', file)] or
    [formData.append('audiencia', file)]. *)
Definition formData (uploadedFiles : list UploadZone.UploadedFile)
    : list (string * UploadZone.File) :=
  flat_map
    (fun fileData =>
       match UploadZone.type fileData with
       | UploadZone.processo => [("processo", UploadZone.file fileData)]
       | UploadZone.audiencia => [("audiencia", UploadZone.file fileData)]
       end)
    uploadedFiles.

(** The [catch] block of [uploadFiles]. *)
Definition connectionError : Js.Error :=
  Js.newError
    "Erro de conexão com o servidor. Verifique se o backend está rodando.".

Definition rethrow (error : Js.Error) : Js.Error :=
  if (Js.name error =? "TypeError")
     && JsString.includes "Failed to fetch" (Js.message error)
  then connectionError
  else error.

Section WithBody.

(** [result.case_id]: the answer of /upload-caso is an object of its
    own, of which [Async.Result] keeps no field; the field is read
    through this accessor ([undefined] when absent). *)
Variable case_id : Result -> option string.

(** [uploadFiles]; it returns [null] or [result.case_id].  The request
    is a POST whose body is [formData uploadedFiles]. *)
Definition uploadFiles : M PageApi.State (option string) :=
  s <- getState ;;
  if (List.length (PageApi.uploadedFiles s) =? 0)%nat then ret None
  else
    try_catch
      (response <- fetch (PageApi.API_URL +++ "/upload-caso") ;;
       (if negb (ok response)
        then errorText <- await (text response) ;;
             throw (Js.newError ("Upload falhou: " +++ statusText response))
        else ret tt) ;;
       result <- await (json response) ;;
       ret (case_id result))
      (fun error => throw (rethrow error)).

(** [handleProcess] *)
Definition handleProcess : M PageApi.State unit :=
  PageApi.setIsProcessing true ;;
  PageApi.initializeTasks ;;
  try_finally
    (try_catch
       (PageApi.setCurrentStep
          "Fazendo upload e iniciando processamento automático..." ;;
        PageApi.updateTaskStatus "0" running (Some "Upload em andamento...") ;;
        uploadedCaseId <- uploadFiles ;;
        match uploadedCaseId with
        | Some c =>
            if Js.truthy c
            then PageApi.setCaseId c ;;
                 PageApi.updateTaskStatus "0" completed
                   (Some ("Arquivos enviados! Case ID: " +++ c)) ;;
                 PageApi.monitorarProgresso c
            else throw (Js.newError "Falha no upload dos arquivos")
        | None => throw (Js.newError "Falha no upload dos arquivos")
        end)
       (fun error => PageApi.setCurrentStep ("Erro: " +++ Js.message error)))
    (PageApi.setIsProcessing false).

End WithBody.

End PageApiRun.

(* ===================================================================== *)
(** * ProcessButton *)
(* ===================================================================== *)

Module ProcessButton.

Import Async.

Section WithPage.

(** The state of the page the button is rendered in. *)
Context {P : Type}.

(** The [useState] cell of the button, beside the state of the page. *)
Record State : Type := mkState { isProcessing : bool; page : P }.

Definition setIsProcessing (b : bool) : M State unit :=
  setState (fun s => {| isProcessing := b; page := page s |}).

(** An event of the page, seen with the cell of the button. *)
Definition withButton (b : bool) (e : Event P) : Event State :=
  match e with
  | Commit s => Commit {| isProcessing := b; page := s |}
  | Await op s => Await op {| isProcessing := b; page := s |}
  end.

(** [await onProcess()]: the function of the page runs on the state
    of the page; the cell of the button is not in its reach. *)
Definition onPage {A} (onProcess : M P A) : M State A :=
  fun w =>
    let b := isProcessing (state w) in
    let '(r, w1, t) :=
      onProcess {| state := page (state w); calls := calls w;
                   network := network w |} in
    (r,
     {| state := {| isProcessing := b; page := state w1 |};
        calls := calls w1; network := network w1 |},
     map (withButton b) t).

(** [handleClick], for the [disabled] property of this render. *)
Definition handleClick (disabled : bool) (onProcess : M P unit)
    : M State unit :=
  s <- PageApiRun.getState ;;
  if disabled || isProcessing s then ret tt
  else
    setIsProcessing true ;;
    try_finally (onPage onProcess) (setIsProcessing false).

End WithPage.

Arguments State : clear implicits.

End ProcessButton.

(* ===================================================================== *)
(** * Vocabulary of the further statements *)
(* ===================================================================== *)

Module More.

Import Async StatusCard.

(** Checks by evaluation, for every total from 1 up to a bound and
    every count of completed tasks: the percentage is 0 only when no
    task is completed and 100 only when all are ([extremesAt]); the
    bar width is the progress itself, between 0 and 100 ([barAt]). *)
Definition extremesAt (t c : nat) : bool :=
  match Spec.percentOf c t with
  | Some p =>
      Bool.eqb (p =? 0)%Z (c =? 0)%nat && Bool.eqb (p =? 100)%Z (c =? t)%nat
  | None => false
  end.

Definition extremesUpTo (bound : nat) : bool :=
  forallb (fun t => forallb (extremesAt t) (seq 0 (S t))) (seq 1 bound).

Definition barAt (t c : nat) : bool :=
  let p := Spec.progressOf c t in
  let bar := Js.Math_min 100%float (Js.Math_max 0%float p) in
  PrimFloat.eqb bar p && PrimFloat.leb 0%float bar && PrimFloat.leb bar 100%float.

Definition barUpTo (bound : nat) : bool :=
  forallb (fun t => forallb (barAt t) (seq 0 (S t))) (seq 0 (S bound)).

(** What the [try] and [catch] blocks of [uploadFiles] make of the
    answer of the network: the error thrown or the case id returned. *)
Definition uploadAttempt (case_id : Result -> option string)
    (answer : FetchOutcome) : Js.Error + option string :=
  match answer with
  | Rejected e => inl (PageApiRun.rethrow e)
  | Resolved r =>
      if ok r
      then match json r with
           | inl e => inl (PageApiRun.rethrow e)
           | inr result => inr (case_id result)
           end
      else match text r with
           | inl e => inl (PageApiRun.rethrow e)
           | inr _ => inl (Js.newError ("Upload falhou: " +++ statusText r))
           end
    end.

(** What [handleProcess] gets from [uploadFiles]: the error that ends
    the run or the case id it goes on with. *)
Definition uploadResult (case_id : Result -> option string)
    (w : World PageApi.State) : Js.Error + string :=
  let missing := Js.newError "Falha no upload dos arquivos" in
  match PageApi.uploadedFiles (state w) with
  | [] => inl missing
  | _ :: _ =>
      match uploadAttempt case_id (network w (calls w)) with
      | inl e => inl e
      | inr None => inl missing
      | inr (Some c) => if Js.truthy c then inr c else inl missing
      end
  end.

(** What the loop of [processWithAPI] keeps, whatever the network
    answers: the other cells, the order of the requests, one at most
    per step, and every task no step addresses. *)
Definition kept (cid : string) (steps : list PageApi.Step.t) (w w' : World PageApi.State)
    (tr : list (Event PageApi.State)) : Prop :=
  PageApi.uploadedFiles (state w') = PageApi.uploadedFiles (state w) /\
  PageApi.isProcessing (state w') = PageApi.isProcessing (state w) /\
  PageApi.caseId (state w') = PageApi.caseId (state w) /\
  network w' = network w /\
  (exists k, (k <= List.length steps)%nat /\
             calls w' = (calls w + k)%nat /\
             invoked tr = Spec.requests (firstn k steps) cid) /\
  Forall2
    (fun t t' =>
       id t' = id t /\ name t' = name t /\
       (~ In (id t) (map PageApi.Step.id steps) -> t' = t))
    (PageApi.tasks (state w)) (PageApi.tasks (state w')).

(** [handleProcess] with [uploadFiles] replaced by its outcome: the
    request, when one is sent, and then the error thrown or the steps
    that follow a case id. *)
Definition sendUpload (sent : bool) : M PageApi.State unit :=
  fun w =>
    if sent
    then (Returned tt,
          {| state := state w; calls := S (calls w); network := network w |},
          [Await (Fetch (PageApi.API_URL +++ "/upload-caso")) (state w)])
    else (Returned tt, w, []).

Definition afterUpload (r : Js.Error + string) : M PageApi.State unit :=
  match r with
  | inl e => throw e
  | inr c =>
      PageApi.setCaseId c ;;
      PageApi.updateTaskStatus "0" completed
        (Some ("Arquivos enviados! Case ID: " +++ c)) ;;
      PageApi.monitorarProgresso c
  end.

Definition handleProcessWith (sent : bool) (r : Js.Error + string)
    : M PageApi.State unit :=
  PageApi.setIsProcessing true ;;
  PageApi.initializeTasks ;;
  try_finally
    (try_catch
       (PageApi.setCurrentStep
          "Fazendo upload e iniciando processamento automático..." ;;
        PageApi.updateTaskStatus "0" running (Some "Upload em andamento...") ;;
        sendUpload sent ;;
        afterUpload r)
       (fun error => PageApi.setCurrentStep ("Erro: " +++ Js.message error)))
    (PageApi.setIsProcessing false).

(** A request is sent when some file is retained. *)
Definition uploadSent (w : World PageApi.State) : bool :=
  negb (List.length (PageApi.uploadedFiles (state w)) =? 0)%nat.

(** The statuses of a task list, in order. *)
Definition statuses (tasks : list Task) : list (string * TaskStatus) :=
  map (fun t => (id t, status t)) tasks.

End More.

(* ===================================================================== *)
(** * Progress aggregation (StatusCard) *)
(* ===================================================================== *)

Section Progress.

Import StatusCard.

Lemma forallb_seq (f : nat -> bool) (n i : nat) :
  forallb f (seq 0 n) = true -> (i < n)%nat -> f i = true.
Proof.
  intros H Hi. rewrite forallb_forall in H. apply H.
  apply in_seq. lia.
Qed.

Lemma completedTasks_count (tasks : list Task) :
  completedTasks tasks = Spec.countStatus completed tasks.
Proof.
  unfold completedTasks.
  induction tasks as [|t rest IH]; simpl; [reflexivity|].
  destruct (TaskStatus_eqb (status t) completed); simpl; rewrite IH; reflexivity.
Qed.

Lemma totalTasks_count (tasks : list Task) :
  totalTasks tasks
  = (Spec.countStatus pending tasks + Spec.countStatus running tasks
     + Spec.countStatus completed tasks + Spec.countStatus error tasks)%nat.
Proof.
  unfold totalTasks.
  induction tasks as [|t rest IH]; simpl; [reflexivity|].
  rewrite IH. destruct (status t); simpl; lia.
Qed.

Lemma completedTasks_le_total (tasks : list Task) :
  (completedTasks tasks <= totalTasks tasks)%nat.
Proof. apply filter_length_le. Qed.

Lemma percent_percentOf (tasks : list Task) :
  percent tasks = Spec.percentOf (completedTasks tasks) (totalTasks tasks).
Proof. reflexivity. Qed.

Lemma barWidth_progressOf (tasks : list Task) :
  barWidth tasks
  = Js.Math_min 100%float
      (Js.Math_max 0%float
         (Spec.progressOf (completedTasks tasks) (totalTasks tasks))).
Proof. reflexivity. Qed.

Lemma agrees_below_40 : Spec.agreesUpTo 39 = true.
Proof. vm_compute. reflexivity. Qed.

Lemma rises_up_to_200 : Spec.risesUpTo 200 = true.
Proof. vm_compute. reflexivity. Qed.

Lemma agreesUpTo_at (bound t c : nat) :
  Spec.agreesUpTo bound = true ->
  (t <= bound)%nat -> (c <= t)%nat -> Spec.agreesAt t c = true.
Proof.
  unfold Spec.agreesUpTo. intros H Ht Hc.
  apply (forallb_seq (Spec.agreesAt t) (S t) c); [|lia].
  apply (forallb_seq _ (S bound) t H). lia.
Qed.

Lemma risesUpTo_at (bound t c : nat) :
  Spec.risesUpTo bound = true ->
  (t <= bound)%nat -> (c < t)%nat -> Spec.risesAt t c = true.
Proof.
  unfold Spec.risesUpTo. intros H Ht Hc.
  apply (forallb_seq (Spec.risesAt t) t c); [|lia].
  apply (forallb_seq _ (S bound) t H). lia.
Qed.

Lemma agreesAt_below_40 (t c : nat) :
  (t < 40)%nat -> (c <= t)%nat -> Spec.agreesAt t c = true.
Proof.
  intros Ht Hc. apply (agreesUpTo_at 39 t c agrees_below_40); lia.
Qed.

Lemma risesAt_up_to_200 (t c : nat) :
  (t <= 200)%nat -> (c < t)%nat -> Spec.risesAt t c = true.
Proof.
  intros Ht Hc. apply (risesUpTo_at 200 t c rises_up_to_200); lia.
Qed.

(** With a fixed total of at most 200 tasks, more completed tasks never
    give a smaller percentage. *)
Lemma percentOf_monotone (t c c' : nat) :
  (0 < t <= 200)%nat -> (c <= c')%nat -> (c' <= t)%nat ->
  exists p q : Z,
    Spec.percentOf c t = Some p /\ Spec.percentOf c' t = Some q /\
    (0 <= p <= q)%Z /\ (q <= 100)%Z.
Proof.
  intros Ht Hc Hc'.
  induction Hc as [|m Hm IH].
  - destruct (Nat.eq_dec c t) as [->|Hne].
    + pose proof (risesAt_up_to_200 t (Nat.pred t) ltac:(lia) ltac:(lia)) as H.
      unfold Spec.risesAt in H.
      replace (S (Nat.pred t)) with t in H by lia.
      destruct (Spec.percentOf (Nat.pred t) t) as [p|]; [|discriminate].
      destruct (Spec.percentOf t t) as [q|]; [|discriminate].
      exists q, q. repeat split; try reflexivity; lia.
    + pose proof (risesAt_up_to_200 t c ltac:(lia) ltac:(lia)) as H.
      unfold Spec.risesAt in H.
      destruct (Spec.percentOf c t) as [p|]; [|discriminate].
      destruct (Spec.percentOf (S c) t) as [q|]; [|discriminate].
      exists p, p. repeat split; try reflexivity; lia.
  - destruct (IH ltac:(lia)) as (p & q & Hp & Hq & Hpq & Hq100).
    pose proof (risesAt_up_to_200 t m ltac:(lia) ltac:(lia)) as H.
    unfold Spec.risesAt in H. rewrite Hq in H.
    destruct (Spec.percentOf (S m) t) as [r|]; [|discriminate].
    exists p, r. repeat split; try assumption; try reflexivity; lia.
Qed.

End Progress.

Section ProgressOfLists.

Import StatusCard.

(** Between two lists of the same length (at most 200) of which the
    second has at least as many completed tasks, the percentage does
    not fall. *)
Lemma percent_le_of_counts (ts ts' : list Task) :
  totalTasks ts' = totalTasks ts ->
  (totalTasks ts <= 200)%nat ->
  (completedTasks ts <= completedTasks ts')%nat ->
  Spec.percent_le ts ts'.
Proof.
  intros Hlen Hbound Hle. unfold Spec.percent_le.
  rewrite !percent_percentOf, Hlen.
  destruct (totalTasks ts) as [|n] eqn:Hn.
  - exists 0%Z, 0%Z. repeat split; try reflexivity; lia.
  - apply percentOf_monotone; try lia.
    rewrite <- Hlen. apply completedTasks_le_total.
Qed.

End ProgressOfLists.

(** C3, as stated, fails: with 23 of 40 tasks completed the exact
    value of 100 * 23 / 40 is the tie 57.5, which rounds to 58, but the
    double (23 / 40) * 100 is 57.49999999999999 and the card shows 57. *)
Lemma progress_23_of_40 :
  let tasks := repeat Example.doneTask 23 ++ repeat Example.waitingTask 17 in
  StatusCard.completedTasks tasks = 23%nat /\
  StatusCard.totalTasks tasks = 40%nat /\
  StatusCard.percent tasks = Some 57%Z /\
  Spec.exactPercent 23 40 = 58%Z /\
  StatusCard.percent tasks
    <> Some (Spec.exactPercent (StatusCard.completedTasks tasks)
                               (StatusCard.totalTasks tasks)).
Proof.
  vm_compute. repeat split; try reflexivity. discriminate.
Qed.

(** C3 (amended): [completedTasks] is the number of tasks in status
    completed and [totalTasks] the number of all tasks, those in status
    error included; the percentage shown is [Math.round] of the double
    [(completedTasks / totalTasks) * 100], which is 0 for the empty
    list and, for every list of fewer than 40 tasks, is
    round(100 * completedTasks / totalTasks) clamped to [0, 100], the
    clamping of the bar changing nothing there. *)
Theorem progress_aggregation (tasks : list StatusCard.Task) :
  StatusCard.completedTasks tasks
    = Spec.countStatus StatusCard.completed tasks /\
  StatusCard.totalTasks tasks
    = (Spec.countStatus StatusCard.pending tasks
       + Spec.countStatus StatusCard.running tasks
       + Spec.countStatus StatusCard.completed tasks
       + Spec.countStatus StatusCard.error tasks)%nat /\
  StatusCard.percent tasks
    = Js.Math_round
        (if (0 <? StatusCard.totalTasks tasks)%nat
         then (Js.Number_of_nat (StatusCard.completedTasks tasks)
               / Js.Number_of_nat (StatusCard.totalTasks tasks) * 100)%float
         else 0%float) /\
  (StatusCard.totalTasks tasks = 0%nat -> StatusCard.percent tasks = Some 0%Z) /\
  ((StatusCard.totalTasks tasks < 40)%nat ->
     StatusCard.percent tasks
       = Some (Spec.exactPercent (StatusCard.completedTasks tasks)
                                 (StatusCard.totalTasks tasks)) /\
     PrimFloat.eqb (StatusCard.barWidth tasks) (StatusCard.progress tasks)
       = true).
Proof.
  split; [apply completedTasks_count|].
  split; [apply totalTasks_count|].
  split; [reflexivity|].
  split.
  - intros H0. rewrite percent_percentOf, H0. reflexivity.
  - intros Hlt.
    pose proof (agreesAt_below_40 _ _ Hlt (completedTasks_le_total tasks)) as H.
    unfold Spec.agreesAt in H.
    rewrite percent_percentOf, barWidth_progressOf.
    change (StatusCard.progress tasks)
      with (Spec.progressOf (StatusCard.completedTasks tasks)
                            (StatusCard.totalTasks tasks)).
    destruct (Spec.percentOf _ _) as [p|]; [|discriminate].
    apply andb_true_iff in H. destruct H as [Hp Hb].
    apply Z.eqb_eq in Hp. subst p. split; [reflexivity|exact Hb].
Qed.

(** The two cases the specification names: 2 of 4 completed gives 50 (a
    task in error counts in the total only), no task gives 0. *)
Lemma progress_aggregation_witness :
  let tasks := [Example.doneTask; Example.failedTask; Example.doneTask; Example.waitingTask] in
  (StatusCard.totalTasks tasks < 40)%nat /\
  StatusCard.completedTasks tasks = 2%nat /\
  StatusCard.totalTasks tasks = 4%nat /\
  StatusCard.percent tasks = Some 50%Z /\
  StatusCard.percent [] = Some 0%Z.
Proof.
  intros tasks.
  assert (Hlt : (StatusCard.totalTasks tasks < 40)%nat) by (vm_compute; lia).
  destruct (progress_aggregation tasks) as (Hc & Ht & _ & _ & Hp).
  destruct (progress_aggregation []) as (_ & _ & _ & H0 & _).
  destruct (Hp Hlt) as [Hp' _].
  split; [exact Hlt|].
  split; [rewrite Hc; reflexivity|].
  split; [rewrite Ht; reflexivity|].
  split; [rewrite Hp'; reflexivity|].
  apply H0. reflexivity.
Defined.

(* ===================================================================== *)
(** * The status update *)
(* ===================================================================== *)

Section Update.

Import StatusCard.

Variables (taskId : string) (st : TaskStatus) (msg : option string).

Let updated : Task -> Task := TaskList.updated taskId st msg.

Lemma update_map (ts : list Task) :
  TaskList.update taskId st msg ts = map updated ts.
Proof. reflexivity. Qed.

Lemma update_length (ts : list Task) :
  List.length (TaskList.update taskId st msg ts) = List.length ts.
Proof. apply length_map. Qed.

Lemma update_nth (ts : list Task) (i : nat) :
  nth_error (TaskList.update taskId st msg ts) i
  = option_map updated (nth_error ts i).
Proof. apply nth_error_map. Qed.

Lemma updated_id (t : Task) : id (updated t) = id t.
Proof. unfold updated, TaskList.updated. destruct (id t =? taskId); reflexivity. Qed.

Lemma updated_name (t : Task) : name (updated t) = name t.
Proof. unfold updated, TaskList.updated. destruct (id t =? taskId); reflexivity. Qed.

Lemma updated_hit (t : Task) :
  id t = taskId ->
  updated t = {| id := id t; name := name t; status := st; message := msg |}.
Proof.
  intros H. unfold updated, TaskList.updated. rewrite H, String.eqb_refl.
  reflexivity.
Qed.

Lemma updated_miss (t : Task) : id t <> taskId -> updated t = t.
Proof.
  intros H. unfold updated, TaskList.updated.
  destruct (String.eqb_spec (id t) taskId); [contradiction|reflexivity].
Qed.

Lemma update_ids (ts : list Task) :
  map id (TaskList.update taskId st msg ts) = map id ts.
Proof.
  rewrite update_map, map_map. apply map_ext. apply updated_id.
Qed.

Lemma update_in (ts : list Task) (t' : Task) :
  In t' (TaskList.update taskId st msg ts) ->
  exists t, In t ts /\ t' = updated t.
Proof.
  rewrite update_map, in_map_iff. intros (t & <- & Hin). eauto.
Qed.

(** After the update the tasks of that id are in the new status; the
    others are tasks of the list before. *)
Lemma update_in_hit (ts : list Task) (t' : Task) :
  In t' (TaskList.update taskId st msg ts) -> id t' = taskId ->
  status t' = st /\ message t' = msg.
Proof.
  intros Hin Hid. apply update_in in Hin. destruct Hin as (t & _ & ->).
  rewrite updated_id in Hid. rewrite (updated_hit t Hid). auto.
Qed.

Lemma update_in_miss (ts : list Task) (t' : Task) :
  In t' (TaskList.update taskId st msg ts) -> id t' <> taskId -> In t' ts.
Proof.
  intros Hin Hid. apply update_in in Hin. destruct Hin as (t & Hin & ->).
  rewrite updated_id in Hid. rewrite (updated_miss t Hid). exact Hin.
Qed.

(** An update that moves every task of that id forward is a step of
    the list. *)
Lemma update_task_step (ts : list Task) :
  (forall t, In t ts -> id t = taskId -> Spec.forward (status t) st = true) ->
  Forall2 Spec.task_step ts (TaskList.update taskId st msg ts).
Proof.
  rewrite update_map.
  induction ts as [|t rest IH]; intros H; simpl; constructor.
  - unfold Spec.task_step. rewrite updated_id, updated_name.
    repeat split.
    destruct (String.eqb_spec (id t) taskId) as [Heq|Hne].
    + right. rewrite (updated_hit t Heq). simpl. apply H; simpl; auto.
    + left. apply updated_miss. exact Hne.
  - apply IH. intros u Hu. apply H. simpl. auto.
Qed.

End Update.

Section Steps.

Import StatusCard.

Lemma task_step_refl (ts : list Task) : Forall2 Spec.task_step ts ts.
Proof.
  induction ts; constructor; auto.
  unfold Spec.task_step. auto.
Qed.

(** A step of the list keeps its length and loses no completed task. *)
Lemma task_step_counts (ts ts' : list Task) :
  Forall2 Spec.task_step ts ts' ->
  totalTasks ts' = totalTasks ts /\
  (completedTasks ts <= completedTasks ts')%nat.
Proof.
  unfold totalTasks, completedTasks.
  induction 1 as [|t t' rest rest' Hstep _ [IHlen IHle]]; simpl.
  - split; [reflexivity|lia].
  - split; [lia|].
    destruct Hstep as (_ & _ & [->|Hf]).
    + destruct (TaskStatus_eqb (status t) completed); simpl; lia.
    + destruct (status t), (status t'); simpl in *; try discriminate; lia.
Qed.

Lemma last_cons {A} (rest : list A) (a b : A) :
  last (b :: rest) a = last rest b.
Proof.
  revert a b. induction rest as [|c rest IH]; intros a b; [reflexivity|].
  change (last (b :: c :: rest) a) with (last (c :: rest) a).
  rewrite (IH a c), (IH b c). reflexivity.
Qed.

Lemma chain_app {A} (R : A -> A -> Prop) (l1 l2 : list A) (a : A) :
  Spec.chain R a l1 ->
  Spec.chain R (last l1 a) l2 ->
  Spec.chain R a (l1 ++ l2).
Proof.
  revert a. induction l1 as [|b rest IH]; intros a H1 H2.
  - exact H2.
  - destruct H1 as [Hab Hrest]. split; [exact Hab|].
    apply IH; [exact Hrest|].
    rewrite <- last_cons with (a := a). exact H2.
Qed.

End Steps.

(* ===================================================================== *)
(** * updateTaskStatus *)
(* ===================================================================== *)

Section UpdateTaskStatus.

Import Async StatusCard.

Lemma sim_update_run taskId st msg (w : World PageSim.State) :
  PageSim.updateTaskStatus taskId st msg w
  = (Returned tt,
     {| state := {| PageSim.uploadedFiles := PageSim.uploadedFiles (state w);
                    PageSim.isProcessing := PageSim.isProcessing (state w);
                    PageSim.tasks :=
                      TaskList.update taskId st msg (PageSim.tasks (state w));
                    PageSim.currentStep := PageSim.currentStep (state w) |};
        calls := calls w; network := network w |},
     [Commit
        {| PageSim.uploadedFiles := PageSim.uploadedFiles (state w);
           PageSim.isProcessing := PageSim.isProcessing (state w);
           PageSim.tasks :=
             TaskList.update taskId st msg (PageSim.tasks (state w));
           PageSim.currentStep := PageSim.currentStep (state w) |}]).
Proof. reflexivity. Qed.

Lemma api_update_run taskId st msg (w : World PageApi.State) :
  PageApi.updateTaskStatus taskId st msg w
  = (Returned tt,
     {| state := {| PageApi.uploadedFiles := PageApi.uploadedFiles (state w);
                    PageApi.isProcessing := PageApi.isProcessing (state w);
                    PageApi.tasks :=
                      TaskList.update taskId st msg (PageApi.tasks (state w));
                    PageApi.currentStep := PageApi.currentStep (state w);
                    PageApi.caseId := PageApi.caseId (state w) |};
        calls := calls w; network := network w |},
     [Commit
        {| PageApi.uploadedFiles := PageApi.uploadedFiles (state w);
           PageApi.isProcessing := PageApi.isProcessing (state w);
           PageApi.tasks :=
             TaskList.update taskId st msg (PageApi.tasks (state w));
           PageApi.currentStep := PageApi.currentStep (state w);
           PageApi.caseId := PageApi.caseId (state w) |}]).
Proof. reflexivity. Qed.

(** Position by position, the list after the update holds the
    replaced task where the id matches and the same task elsewhere. *)
Lemma update_pointwise taskId st msg (ts : list Task) :
  Forall2
    (fun t t' =>
       if id t =? taskId
       then t' = {| id := id t; name := name t;
                    status := st; message := msg |}
       else t' = t)
    ts (TaskList.update taskId st msg ts).
Proof.
  unfold TaskList.update.
  induction ts as [|t rest IH]; simpl; constructor; [|exact IH].
  destruct (id t =? taskId); reflexivity.
Qed.

End UpdateTaskStatus.

(** C8: a status update is one transition of the state.  In both
    pages, [updateTaskStatus taskId status message] returns normally
    and commits exactly one new state; in that state every task whose
    id is [taskId] has the new status together with the new message
    (same id and name), every other task is the task it was, and the
    other cells of the page are untouched. *)
Theorem updateTaskStatus_atomic
    (taskId : string) (st : StatusCard.TaskStatus) (msg : option string) :
  (forall w : Async.World PageSim.State,
     exists s' : PageSim.State,
       PageSim.updateTaskStatus taskId st msg w
       = (Async.Returned tt,
          {| Async.state := s'; Async.calls := Async.calls w;
             Async.network := Async.network w |},
          [Async.Commit s']) /\
       Forall2
         (fun t t' =>
            if StatusCard.id t =? taskId
            then t' = {| StatusCard.id := StatusCard.id t;
                         StatusCard.name := StatusCard.name t;
                         StatusCard.status := st;
                         StatusCard.message := msg |}
            else t' = t)
         (PageSim.tasks (Async.state w)) (PageSim.tasks s') /\
       PageSim.uploadedFiles s' = PageSim.uploadedFiles (Async.state w) /\
       PageSim.isProcessing s' = PageSim.isProcessing (Async.state w) /\
       PageSim.currentStep s' = PageSim.currentStep (Async.state w)) /\
  (forall w : Async.World PageApi.State,
     exists s' : PageApi.State,
       PageApi.updateTaskStatus taskId st msg w
       = (Async.Returned tt,
          {| Async.state := s'; Async.calls := Async.calls w;
             Async.network := Async.network w |},
          [Async.Commit s']) /\
       Forall2
         (fun t t' =>
            if StatusCard.id t =? taskId
            then t' = {| StatusCard.id := StatusCard.id t;
                         StatusCard.name := StatusCard.name t;
                         StatusCard.status := st;
                         StatusCard.message := msg |}
            else t' = t)
         (PageApi.tasks (Async.state w)) (PageApi.tasks s') /\
       PageApi.uploadedFiles s' = PageApi.uploadedFiles (Async.state w) /\
       PageApi.isProcessing s' = PageApi.isProcessing (Async.state w) /\
       PageApi.currentStep s' = PageApi.currentStep (Async.state w) /\
       PageApi.caseId s' = PageApi.caseId (Async.state w)).
Proof.
  split; intros w; eexists.
  - rewrite sim_update_run. split; [reflexivity|].
    split; [apply update_pointwise|]. simpl. auto.
  - rewrite api_update_run. split; [reflexivity|].
    split; [apply update_pointwise|]. simpl. auto.
Qed.

(** C10: an update that passes no message erases the one the task
    had.  In both pages, when the task at some position has id
    [taskId] and carries a message, after
    [updateTaskStatus taskId status] (third argument [undefined]) the
    task at that position has the new status and no message. *)
Theorem updateTaskStatus_without_message
    (taskId : string) (st : StatusCard.TaskStatus) :
  (forall (w : Async.World PageSim.State) (i : nat) (t : StatusCard.Task)
          (m : string),
     nth_error (PageSim.tasks (Async.state w)) i = Some t ->
     StatusCard.id t = taskId ->
     StatusCard.message t = Some m ->
     exists w',
       PageSim.updateTaskStatus taskId st None w
       = (Async.Returned tt, w', [Async.Commit (Async.state w')]) /\
       nth_error (PageSim.tasks (Async.state w')) i
       = Some {| StatusCard.id := StatusCard.id t;
                 StatusCard.name := StatusCard.name t;
                 StatusCard.status := st;
                 StatusCard.message := None |}) /\
  (forall (w : Async.World PageApi.State) (i : nat) (t : StatusCard.Task)
          (m : string),
     nth_error (PageApi.tasks (Async.state w)) i = Some t ->
     StatusCard.id t = taskId ->
     StatusCard.message t = Some m ->
     exists w',
       PageApi.updateTaskStatus taskId st None w
       = (Async.Returned tt, w', [Async.Commit (Async.state w')]) /\
       nth_error (PageApi.tasks (Async.state w')) i
       = Some {| StatusCard.id := StatusCard.id t;
                 StatusCard.name := StatusCard.name t;
                 StatusCard.status := st;
                 StatusCard.message := None |}).
Proof.
  split; intros w i t m Hnth Hid _.
  - exists (snd (fst (PageSim.updateTaskStatus taskId st None w))).
    split; [reflexivity|]. simpl.
    rewrite update_nth, Hnth. simpl. f_equal. apply updated_hit. exact Hid.
  - exists (snd (fst (PageApi.updateTaskStatus taskId st None w))).
    split; [reflexivity|]. simpl.
    rewrite update_nth, Hnth. simpl. f_equal. apply updated_hit. exact Hid.
Qed.

(** The task "1" of a finished run carries "Concluído"; marking it
    running without a message leaves it with none. *)
Lemma updateTaskStatus_without_message_witness :
  exists w',
    PageApi.updateTaskStatus "1" StatusCard.running None Example.apiDone
    = (Async.Returned tt, w', [Async.Commit (Async.state w')]) /\
    nth_error (PageApi.tasks (Async.state w')) 1
    = Some {| StatusCard.id := "1";
              StatusCard.name := "Transcrição de áudio";
              StatusCard.status := StatusCard.running;
              StatusCard.message := None |}.
Proof.
  exact (proj2 (updateTaskStatus_without_message "1" StatusCard.running)
           Example.apiDone 1%nat
           {| StatusCard.id := "1";
              StatusCard.name := "Transcrição de áudio";
              StatusCard.status := StatusCard.completed;
              StatusCard.message := Some "Concluído" |}
           "Concluído" eq_refl eq_refl eq_refl).
Defined.

(** C1, as stated, fails: the update has no check.  Moving the
    completed task "1" of a finished run back to pending returns
    normally and the task is pending afterwards. *)
Lemma updateTaskStatus_leaves_terminal :
  nth_error (PageApi.tasks (Async.state Example.apiDone)) 1
  = Some {| StatusCard.id := "1";
            StatusCard.name := "Transcrição de áudio";
            StatusCard.status := StatusCard.completed;
            StatusCard.message := Some "Concluído" |} /\
  Spec.forward StatusCard.completed StatusCard.pending = false /\
  exists w',
    PageApi.updateTaskStatus "1" StatusCard.pending None Example.apiDone
    = (Async.Returned tt, w', [Async.Commit (Async.state w')]) /\
    nth_error (PageApi.tasks (Async.state w')) 1
    = Some {| StatusCard.id := "1";
              StatusCard.name := "Transcrição de áudio";
              StatusCard.status := StatusCard.pending;
              StatusCard.message := None |}.
Proof.
  split; [reflexivity|]. split; [reflexivity|].
  exists (snd (fst (PageApi.updateTaskStatus
                      "1" StatusCard.pending None Example.apiDone))).
  split; reflexivity.
Qed.

(* ===================================================================== *)
(** * The laws of the asynchronous functions used below *)
(* ===================================================================== *)

Section AsyncLaws.

Import Async.

Context {S : Type}.

Lemma bind_returned {A B} (m : M S A) (f : A -> M S B) (w w1 : World S)
    (a : A) (t1 : list (Event S)) :
  m w = (Returned a, w1, t1) ->
  bind m f w = (let '(r, w2, t2) := f a w1 in (r, w2, t1 ++ t2)).
Proof. intros H. unfold bind. rewrite H. reflexivity. Qed.

Lemma bind_threw {A B} (m : M S A) (f : A -> M S B) (w w1 : World S)
    (e : Js.Error) (t1 : list (Event S)) :
  m w = (Threw e, w1, t1) ->
  bind m f w = (Threw e, w1, t1).
Proof. intros H. unfold bind. rewrite H. reflexivity. Qed.

Lemma forOf_cons {X} (x : X) (xs : list X) (body : X -> M S unit) (w : World S) :
  forOf (x :: xs) body w = bind (body x) (fun _ => forOf xs body) w.
Proof. reflexivity. Qed.

(** A loop over [xs ++ ys] runs the loop over [xs] and, unless it
    threw, goes on with the loop over [ys]. *)
Lemma forOf_app {X} (xs ys : list X) (body : X -> M S unit) (w : World S) :
  forOf (xs ++ ys) body w
  = bind (forOf xs body) (fun _ => forOf ys body) w.
Proof.
  revert w. induction xs as [|x xs IH]; intros w.
  - simpl. unfold bind, ret.
    destruct (forOf ys body w) as [[r w2] t2]. reflexivity.
  - simpl. unfold bind.
    destruct (body x w) as [[[[]|e] w1] t1]; [|reflexivity].
    rewrite IH. unfold bind.
    destruct (forOf xs body w1) as [[[[]|e] w2] t2]; [|reflexivity].
    destruct (forOf ys body w2) as [[r w3] t3].
    rewrite app_assoc. reflexivity.
Qed.

Lemma invoked_app (t1 t2 : list (Event S)) :
  invoked (t1 ++ t2) = invoked t1 ++ invoked t2.
Proof.
  induction t1 as [|[s|op s] t1 IH]; simpl; [reflexivity|exact IH|].
  rewrite IH. reflexivity.
Qed.

Lemma snapshots_app (t1 t2 : list (Event S)) :
  snapshots (t1 ++ t2) = snapshots t1 ++ snapshots t2.
Proof. apply map_app. Qed.

End AsyncLaws.

(* ===================================================================== *)
(** * processWithAPI: one iteration and the loop *)
(* ===================================================================== *)

Section ProcessLoop.

Import Async StatusCard.

Variable cid : string.

(** What one iteration does, by the outcome of its [try] block. *)
Lemma api_iteration (step : PageApi.Step.t) (w : World PageApi.State) :
  PageApi.iteration cid step w
  = match Spec.attempt step (network w (calls w)) with
    | inr res =>
        (Returned tt,
         {| state := Spec.apiCompleted step res (state w);
            calls := S (calls w); network := network w |},
         [ Commit (Spec.apiLabelled step (state w));
           Commit (Spec.apiStarted step (state w));
           Await (Fetch (PageApi.url step cid)) (Spec.apiStarted step (state w));
           Commit (Spec.apiCompleted step res (state w)) ])
    | inl e =>
        (Threw e,
         {| state := Spec.apiFailed step e (state w);
            calls := S (calls w); network := network w |},
         [ Commit (Spec.apiLabelled step (state w));
           Commit (Spec.apiStarted step (state w));
           Await (Fetch (PageApi.url step cid)) (Spec.apiStarted step (state w));
           Commit (Spec.apiFailed step e (state w)) ])
    end.
Proof.
  unfold PageApi.iteration, PageApi.tryStep, bind, try_catch, fetch,
    Spec.attempt; simpl.
  destruct (network w (calls w)) as [e|[okr str stt txt jsn]]; simpl;
    [reflexivity|].
  destruct okr; simpl.
  - destruct jsn as [e|res]; reflexivity.
  - destruct txt as [e|body]; reflexivity.
Qed.

(** The loop over steps that all succeed. *)
Lemma api_loop_ok (pre : list PageApi.Step.t) :
  forall (results : list Result) (w : World PageApi.State),
    Spec.attempts pre (network w) (calls w) = map inr results ->
    PageApi.processLoop pre cid w
    = (Returned tt,
       {| state := Spec.apiAfter (combine pre results) (state w);
          calls := calls w + List.length pre; network := network w |},
       Spec.apiTrace (combine pre results) cid (state w)).
Proof.
  unfold PageApi.processLoop.
  induction pre as [|step pre IH]; intros results w Hok.
  - simpl. unfold ret. rewrite Nat.add_0_r. destruct w; reflexivity.
  - destruct results as [|res results]; [discriminate|].
    simpl in Hok. injection Hok as Hstep Hrest.
    rewrite forOf_cons.
    rewrite (bind_returned _ _ w _ tt _
               (eq_trans (api_iteration step w)
                  ltac:(rewrite Hstep; reflexivity))).
    rewrite (IH results); [|exact Hrest].
    simpl. repeat f_equal. lia.
Qed.

(** The loop when the steps of [pre] succeed and the next one fails:
    it throws the error of that step and runs nothing of [post]. *)
Lemma api_loop_fail (pre : list PageApi.Step.t) (s : PageApi.Step.t)
    (post : list PageApi.Step.t) (results : list Result) (e : Js.Error)
    (w : World PageApi.State) :
  Spec.attempts pre (network w) (calls w) = map inr results ->
  Spec.attempt s (network w (calls w + List.length pre)) = inl e ->
  PageApi.processLoop (pre ++ s :: post) cid w
  = (Threw e,
     {| state := Spec.apiFailed s e
                   (Spec.apiAfter (combine pre results) (state w));
        calls := S (calls w + List.length pre); network := network w |},
     Spec.apiTrace (combine pre results) cid (state w)
     ++ [ Commit (Spec.apiLabelled s
                    (Spec.apiAfter (combine pre results) (state w)));
          Commit (Spec.apiStarted s
                    (Spec.apiAfter (combine pre results) (state w)));
          Await (Fetch (PageApi.url s cid))
                (Spec.apiStarted s
                   (Spec.apiAfter (combine pre results) (state w)));
          Commit (Spec.apiFailed s e
                    (Spec.apiAfter (combine pre results) (state w))) ]).
Proof.
  intros Hok Hfail. unfold PageApi.processLoop.
  rewrite forOf_app.
  rewrite (bind_returned _ _ w _ tt _ (api_loop_ok pre results w Hok)).
  rewrite forOf_cons.
  erewrite bind_threw; [reflexivity|].
  rewrite api_iteration. simpl. rewrite Hfail. reflexivity.
Qed.

End ProcessLoop.

Section Settled.

Import Async StatusCard.

Lemma attempts_length (pre : list PageApi.Step.t) :
  forall (results : list Result) net n,
    Spec.attempts pre net n = map inr results ->
    List.length results = List.length pre.
Proof.
  induction pre as [|s pre IH]; intros [|res results] net n H;
    try discriminate; [reflexivity|].
  simpl in H. injection H as _ H. simpl. f_equal. eapply IH. exact H.
Qed.

Lemma attempts_app (pre post : list PageApi.Step.t) net n :
  Spec.attempts (pre ++ post) net n
  = Spec.attempts pre net n ++ Spec.attempts post net (n + List.length pre).
Proof.
  revert n. induction pre as [|s pre IH]; intros n; simpl.
  - rewrite Nat.add_0_r. reflexivity.
  - rewrite IH.
    replace (n + S (List.length pre))%nat
      with (S n + List.length pre)%nat by lia.
    reflexivity.
Qed.

Lemma combine_ids (pre : list PageApi.Step.t) :
  forall results : list Result,
    List.length results = List.length pre ->
    map (fun p => PageApi.Step.id (fst p)) (combine pre results)
    = map PageApi.Step.id pre.
Proof.
  induction pre as [|s pre IH]; intros [|res results] H;
    try discriminate; [reflexivity|].
  simpl. f_equal. apply IH. simpl in H. lia.
Qed.

Lemma or_else_completedMessage (res : Result) :
  Js.or_else (Async.message res) "Concluído" = Spec.completedMessage res.
Proof.
  unfold Js.or_else, Spec.completedMessage, Js.truthy.
  destruct (Async.message res) as [m|]; [|reflexivity].
  destruct (m =? ""); reflexivity.
Qed.

Lemma apiAfter_tasks (done : list (PageApi.Step.t * Result)) :
  forall s : PageApi.State,
    PageApi.tasks (Spec.apiAfter done s)
    = map (Spec.settle done) (PageApi.tasks s).
Proof.
  induction done as [|[step res] rest IH]; intros s; simpl.
  - symmetry. apply map_id.
  - rewrite IH. simpl. unfold TaskList.update.
    rewrite !map_map. reflexivity.
Qed.

Lemma apiAfter_frame (done : list (PageApi.Step.t * Result)) :
  forall s : PageApi.State,
    PageApi.uploadedFiles (Spec.apiAfter done s) = PageApi.uploadedFiles s /\
    PageApi.isProcessing (Spec.apiAfter done s) = PageApi.isProcessing s /\
    PageApi.caseId (Spec.apiAfter done s) = PageApi.caseId s.
Proof.
  induction done as [|[step res] rest IH]; intros s; simpl; [auto|].
  destruct (IH (Spec.apiCompleted step res s)) as (H1 & H2 & H3).
  rewrite H1, H2, H3. auto.
Qed.

Lemma apiTrace_invoked (pre : list PageApi.Step.t) cid :
  forall (results : list Result) (s : PageApi.State),
    List.length results = List.length pre ->
    invoked (Spec.apiTrace (combine pre results) cid s)
    = Spec.requests pre cid.
Proof.
  induction pre as [|step pre IH]; intros [|res results] s H;
    try discriminate; [reflexivity|].
  simpl. f_equal. apply IH. simpl in H. lia.
Qed.

Lemma settle_id done : forall t, id (Spec.settle done t) = id t.
Proof.
  induction done as [|[step res] rest IH]; intros t; simpl; [reflexivity|].
  rewrite IH, !updated_id. reflexivity.
Qed.

Lemma settle_name done : forall t, name (Spec.settle done t) = name t.
Proof.
  induction done as [|[step res] rest IH]; intros t; simpl; [reflexivity|].
  rewrite IH, !updated_name. reflexivity.
Qed.

(** A task no step addresses is left as it is. *)
Lemma settle_miss done :
  forall t,
    ~ In (id t) (map (fun p => PageApi.Step.id (fst p)) done) ->
    Spec.settle done t = t.
Proof.
  induction done as [|[step res] rest IH]; intros t H; simpl; [reflexivity|].
  simpl in H.
  assert (Hne : id t <> PageApi.Step.id step) by (intros E; apply H; auto).
  rewrite (updated_miss _ _ _ t Hne), (updated_miss _ _ _ t Hne).
  apply IH. intros Hin. apply H. auto.
Qed.

Lemma settle_completed_stays done :
  forall t, status t = completed -> status (Spec.settle done t) = completed.
Proof.
  induction done as [|[step res] rest IH]; intros t H; simpl; [exact H|].
  apply IH.
  destruct (String.eqb_spec (id t) (PageApi.Step.id step)) as [Heq|Hne].
  - rewrite (updated_hit _ _ _ _); [reflexivity|].
    rewrite updated_id. exact Heq.
  - rewrite !(updated_miss _ _ _ t Hne). exact H.
Qed.

(** A task some step addresses ends up completed. *)
Lemma settle_hit done :
  forall t,
    In (id t) (map (fun p => PageApi.Step.id (fst p)) done) ->
    status (Spec.settle done t) = completed.
Proof.
  induction done as [|[step res] rest IH]; intros t H; simpl; [contradiction|].
  destruct (String.eqb_spec (id t) (PageApi.Step.id step)) as [Heq|Hne].
  - apply settle_completed_stays.
    rewrite (updated_hit _ _ _ _); [reflexivity|].
    rewrite updated_id. exact Heq.
  - rewrite !(updated_miss _ _ _ t Hne). apply IH.
    simpl in H. destruct H as [H|H]; [congruence|exact H].
Qed.

(** With distinct step ids, it carries the message of its step. *)
Lemma settle_message done :
  NoDup (map (fun p => PageApi.Step.id (fst p)) done) ->
  forall t step res,
    In (step, res) done -> id t = PageApi.Step.id step ->
    message (Spec.settle done t) = Some (Spec.completedMessage res).
Proof.
  induction done as [|[step0 res0] rest IH]; intros Hnd t step res Hin Hid;
    simpl; [contradiction|].
  simpl in Hnd. apply NoDup_cons_iff in Hnd. destruct Hnd as [Hnotin Hnd].
  destruct Hin as [Heq|Hin].
  - injection Heq as -> ->.
    rewrite settle_miss.
    + rewrite (updated_hit _ _ _ _); [|rewrite updated_id; exact Hid].
      simpl. rewrite or_else_completedMessage. reflexivity.
    + rewrite !updated_id, Hid. exact Hnotin.
  - assert (Hne : id t <> PageApi.Step.id step0).
    { intros E. apply Hnotin. rewrite <- E, Hid.
      apply (in_map (fun p => PageApi.Step.id (fst p)) _ _ Hin). }
    rewrite !(updated_miss _ _ _ t Hne). eapply IH; eauto.
Qed.

End Settled.

Section ListFacts.

Lemma NoDup_app_disjoint {A} (l1 l2 : list A) :
  NoDup (l1 ++ l2) -> forall a, In a l1 -> In a l2 -> False.
Proof.
  induction l1 as [|b l1 IH]; intros Hnd a H1 H2; [contradiction|].
  simpl in Hnd. apply NoDup_cons_iff in Hnd. destruct Hnd as [Hb Hnd].
  destruct H1 as [->|H1].
  - apply Hb. apply in_or_app. auto.
  - exact (IH Hnd a H1 H2).
Qed.

Lemma nth_error_combine_in {A B} (l : list A) :
  forall (l' : list B) (j : nat) (a : A) (b : B),
    nth_error l j = Some a -> nth_error l' j = Some b ->
    In (a, b) (combine l l').
Proof.
  induction l as [|x l IH]; intros [|y l'] [|j] a b Ha Hb;
    simpl in *; try discriminate.
  - injection Ha as ->. injection Hb as ->. auto.
  - right. eapply IH; eauto.
Qed.

Lemma Forall2_map_of {A B} (P : A -> B -> Prop) (f : A -> B) (l : list A) :
  (forall a, In a l -> P a (f a)) -> Forall2 P l (map f l).
Proof.
  induction l as [|a l IH]; intros H; simpl; constructor.
  - apply H. simpl. auto.
  - apply IH. intros b Hb. apply H. simpl. auto.
Qed.

End ListFacts.

(** C2, as stated, fails on two points.  In a run of [processWithAPI]
    whose second request is rejected with "network error", the task of
    that step is in error, but its message is "Erro: network error",
    not the reason alone; and the run ends by throwing the error of
    the step: what it hands to its caller carries the reason and no
    index of the step. *)
Lemma processWithAPI_network_error :
  exists w' tr,
    PageApi.processWithAPI "abc" (Example.apiStart (Example.downFrom 1))
    = (Async.Threw Example.networkError, w', tr) /\
    map (fun t => (StatusCard.id t, StatusCard.status t, StatusCard.message t))
        (PageApi.tasks (Async.state w'))
    = [ ("0", StatusCard.pending, None);
        ("1", StatusCard.completed, Some "ok");
        ("2", StatusCard.error, Some "Erro: network error");
        ("3", StatusCard.pending, None) ] /\
    Js.message Example.networkError = "network error" /\
    nth_error (map StatusCard.message (PageApi.tasks (Async.state w'))) 2
    <> Some (Some (Js.message Example.networkError)).
Proof.
  eexists. eexists.
  split; [vm_compute; reflexivity|].
  split; [reflexivity|]. split; [reflexivity|].
  vm_compute. discriminate.
Qed.

(** C2 (amended): when the steps before step k succeed and step k
    fails with an error, the loop throws that same error (so whatever
    follows the loop is skipped), having sent the requests of the steps
    up to k and no other; in the final state the tasks of the steps
    before k are completed with the messages of their results, the
    task of step k is in status error with message "Erro: " followed
    by the message of the error, and the tasks of the later steps are
    exactly as they were, hence still pending. *)
Theorem abort_on_failure
    (pre : list PageApi.Step.t) (s : PageApi.Step.t)
    (post : list PageApi.Step.t) (results : list Async.Result)
    (e : Js.Error) (cid : string) (w : Async.World PageApi.State) :
  NoDup (map PageApi.Step.id (pre ++ s :: post)) ->
  Spec.attempts pre (Async.network w) (Async.calls w) = map inr results ->
  Spec.attempt s (Async.network w (Async.calls w + List.length pre)) = inl e ->
  exists w' tr,
    PageApi.processLoop (pre ++ s :: post) cid w = (Async.Threw e, w', tr) /\
    (forall k : unit -> Async.M PageApi.State unit,
       Async.bind (PageApi.processLoop (pre ++ s :: post) cid) k w
       = (Async.Threw e, w', tr)) /\
    Async.invoked tr = Spec.requests (pre ++ [s]) cid /\
    Forall2
      (fun t t' =>
         StatusCard.id t' = StatusCard.id t /\
         StatusCard.name t' = StatusCard.name t /\
         (In (StatusCard.id t) (map PageApi.Step.id pre) ->
            StatusCard.status t' = StatusCard.completed) /\
         (forall j step res,
            nth_error pre j = Some step -> nth_error results j = Some res ->
            StatusCard.id t = PageApi.Step.id step ->
            StatusCard.message t' = Some (Spec.completedMessage res)) /\
         (StatusCard.id t = PageApi.Step.id s ->
            StatusCard.status t' = StatusCard.error /\
            StatusCard.message t' = Some ("Erro: " +++ Js.message e)) /\
         (In (StatusCard.id t) (map PageApi.Step.id post) -> t' = t))
      (PageApi.tasks (Async.state w)) (PageApi.tasks (Async.state w')).
Proof.
  intros Hnd Hok Hfail.
  pose proof (attempts_length _ _ _ _ Hok) as Hlen.
  pose proof (api_loop_fail cid pre s post results e w Hok Hfail) as Hrun.
  eexists. eexists. split; [exact Hrun|].
  split; [intros k; apply bind_threw; exact Hrun|].
  split.
  { rewrite invoked_app, (apiTrace_invoked pre cid results _ Hlen).
    unfold Spec.requests. rewrite map_app. reflexivity. }
  cbn [Async.state PageApi.tasks Spec.apiFailed Spec.apiSettled
       Spec.apiStarted Spec.apiLabelled].
  rewrite apiAfter_tasks, !update_map, !map_map.
  apply Forall2_map_of. intros t _.
  rewrite map_app in Hnd. simpl in Hnd.
  assert (Hpre : NoDup (map PageApi.Step.id pre))
    by (eapply NoDup_app_remove_r; exact Hnd).
  assert (Hs : ~ In (PageApi.Step.id s) (map PageApi.Step.id pre)).
  { intros Hin. eapply (NoDup_app_disjoint _ _ Hnd); [exact Hin|]. simpl. auto. }
  assert (Hpost : forall x, In x (map PageApi.Step.id post) ->
                    ~ In x (map PageApi.Step.id pre) /\ x <> PageApi.Step.id s).
  { intros x Hx. split.
    - intros Hin. eapply (NoDup_app_disjoint _ _ Hnd); [exact Hin|].
      simpl. auto.
    - intros ->. apply NoDup_app_remove_l in Hnd.
      apply NoDup_cons_iff in Hnd. destruct Hnd as [Hn _]. exact (Hn Hx). }
  rewrite !updated_id, settle_id, !updated_name, settle_name.
  split; [reflexivity|]. split; [reflexivity|].
  split; [|split; [|split]].
  - intros Hin.
    assert (Hne : StatusCard.id t <> PageApi.Step.id s)
      by (intros E; apply Hs; rewrite <- E; exact Hin).
    rewrite !updated_miss by (rewrite ?updated_id, settle_id; exact Hne).
    apply settle_hit. rewrite (combine_ids pre results Hlen). exact Hin.
  - intros j step res Hj Hr Hid.
    assert (Hin : In (StatusCard.id t) (map PageApi.Step.id pre)).
    { rewrite Hid. apply in_map. eapply nth_error_In. exact Hj. }
    assert (Hne : StatusCard.id t <> PageApi.Step.id s)
      by (intros E; apply Hs; rewrite <- E; exact Hin).
    rewrite !updated_miss by (rewrite ?updated_id, settle_id; exact Hne).
    apply (settle_message (combine pre results)) with (step := step).
    + rewrite (combine_ids pre results Hlen). exact Hpre.
    + eapply nth_error_combine_in; eauto.
    + exact Hid.
  - intros Hid.
    rewrite updated_hit by (rewrite updated_id, settle_id; exact Hid).
    simpl. auto.
  - intros Hin. destruct (Hpost _ Hin) as [Hnpre Hne].
    rewrite !updated_miss by (rewrite ?updated_id, settle_id; exact Hne).
    apply settle_miss. rewrite (combine_ids pre results Hlen). exact Hnpre.
Qed.

(** The steps "1" and "3" of the page with "2" failing in between: the
    hypotheses of [abort_on_failure] hold for the run of the page
    whose second request is rejected, and the loop throws the network
    error after the two requests. *)
Lemma abort_on_failure_witness :
  exists w' tr,
    PageApi.processLoop PageApi.steps "abc"
      (Example.apiStart (Example.downFrom 1))
    = (Async.Threw Example.networkError, w', tr) /\
    Async.invoked tr
    = [ Async.Fetch "http://localhost:8000/step1-transcribe/abc";
        Async.Fetch "http://localhost:8000/step2-process/abc" ].
Proof.
  assert (Hnd : NoDup (map PageApi.Step.id PageApi.steps)).
  { repeat constructor; simpl; intuition discriminate. }
  destruct (abort_on_failure
              [PageApi.Step.mk "1" "Transcrevendo áudio..." "step1-transcribe"]
              (PageApi.Step.mk "2" "Processando com Gemini..." "step2-process")
              [PageApi.Step.mk "3" "Gerando sentença com Claude..."
                 "step3-generate"]
              [ {| Async.message := Some "ok" |} ]
              Example.networkError "abc"
              (Example.apiStart (Example.downFrom 1))
              Hnd eq_refl eq_refl)
    as (w' & tr & Hrun & _ & Hinv & _).
  exists w', tr. split; [exact Hrun|exact Hinv].
Defined.

(* ===================================================================== *)
(** * simulateProcessing: one iteration and the loop *)
(* ===================================================================== *)

Section SimulateLoop.

Import Async StatusCard.

Lemma sim_iteration (step : PageSim.Step.t) (w : World PageSim.State) :
  PageSim.iteration step w
  = (Returned tt,
     {| state := Spec.simCompleted step (state w);
        calls := calls w; network := network w |},
     [ Commit (Spec.simLabelled step (state w));
       Commit (Spec.simStarted step (state w));
       Await (Timeout (PageSim.Step.duration step))
             (Spec.simStarted step (state w));
       Commit (Spec.simCompleted step (state w)) ]).
Proof. reflexivity. Qed.

(** The timers never fail: the loop always returns. *)
Lemma sim_loop (steps : list PageSim.Step.t) :
  forall w : World PageSim.State,
    PageSim.simulateLoop steps w
    = (Returned tt,
       {| state := Spec.simAfter steps (state w);
          calls := calls w; network := network w |},
       Spec.simTrace steps (state w)).
Proof.
  unfold PageSim.simulateLoop.
  induction steps as [|step steps IH]; intros w.
  - simpl. unfold ret. destruct w; reflexivity.
  - rewrite forOf_cons.
    rewrite (bind_returned _ _ w _ tt _ (sim_iteration step w)).
    rewrite IH. reflexivity.
Qed.

Lemma simAfter_app (pre post : list PageSim.Step.t) (s : PageSim.State) :
  Spec.simAfter (pre ++ post) s = Spec.simAfter post (Spec.simAfter pre s).
Proof.
  revert s. induction pre as [|step pre IH]; intros s; simpl; auto.
Qed.

Lemma simTrace_app (pre post : list PageSim.Step.t) (s : PageSim.State) :
  Spec.simTrace (pre ++ post) s
  = Spec.simTrace pre s ++ Spec.simTrace post (Spec.simAfter pre s).
Proof.
  revert s. induction pre as [|step pre IH]; intros s; simpl; [reflexivity|].
  rewrite IH. reflexivity.
Qed.

Lemma simAfter_ids (steps : list PageSim.Step.t) :
  forall s,
    Forall2 (fun t t' => id t' = id t /\ name t' = name t)
      (PageSim.tasks s) (PageSim.tasks (Spec.simAfter steps s)).
Proof.
  induction steps as [|step steps IH]; intros s; simpl.
  - rewrite <- (map_id (PageSim.tasks s)) at 2.
    apply Forall2_map_of; auto.
  - specialize (IH (Spec.simCompleted step s)).
    cbn [PageSim.tasks Spec.simCompleted Spec.simSettled Spec.simStarted
         Spec.simLabelled] in IH.
    rewrite !update_map, map_map in IH.
    remember (PageSim.tasks (Spec.simAfter steps (Spec.simCompleted step s)))
      as final eqn:Hfinal. clear Hfinal.
    remember (PageSim.tasks s) as ts eqn:Hts. clear Hts.
    revert final IH. induction ts as [|t ts IHts]; intros final H;
      inversion H; subst; constructor.
    + rewrite !updated_id, !updated_name in *. assumption.
    + apply IHts. assumption.
Qed.

End SimulateLoop.

(** C5, as stated, fails for one kind of result: a message that is the
    empty string is a message the operation supplied, yet
    [result.message || 'Concluído'] replaces it by the default.  In the
    run below the first answer carries [message: ""] and the task "1"
    ends with "Concluído". *)
Lemma processWithAPI_empty_message :
  Spec.attempt
    (PageApi.Step.mk "1" "Transcrevendo áudio..." "step1-transcribe")
    (Example.emptyMessage 0)
  = inr {| Async.message := Some "" |} /\
  exists w' tr,
    PageApi.processWithAPI "abc" (Example.apiStart Example.emptyMessage)
    = (Async.Returned tt, w', tr) /\
    nth_error (PageApi.tasks (Async.state w')) 1
    = Some {| StatusCard.id := "1";
              StatusCard.name := "Transcrição de áudio";
              StatusCard.status := StatusCard.completed;
              StatusCard.message := Some "Concluído" |} /\
    nth_error (map StatusCard.message (PageApi.tasks (Async.state w'))) 1
    <> Some (Some "").
Proof.
  split; [reflexivity|].
  eexists. eexists.
  split; [vm_compute; reflexivity|].
  split; [reflexivity|].
  vm_compute. discriminate.
Qed.

(** C5 (amended): when the steps up to and including a step succeed,
    the loop over them returns, and the tasks of that step are then
    completed with the message of its result when that message is a
    non-empty string, and with "Concluído" when the result has no
    message or an empty one; the loop over the whole list then goes on
    with the remaining steps from that state.  In the timer-driven
    page every step succeeds and records "Concluído". *)
Theorem completion_and_continuation :
  (forall (pre : list PageApi.Step.t) (s : PageApi.Step.t)
          (post : list PageApi.Step.t) (results : list Async.Result)
          (res : Async.Result) (cid : string)
          (w : Async.World PageApi.State),
     Spec.attempts (pre ++ [s]) (Async.network w) (Async.calls w)
     = map inr (results ++ [res]) ->
     exists w1 t1,
       PageApi.processLoop (pre ++ [s]) cid w = (Async.Returned tt, w1, t1) /\
       Forall2
         (fun t t' =>
            StatusCard.id t' = StatusCard.id t /\
            StatusCard.name t' = StatusCard.name t /\
            (StatusCard.id t = PageApi.Step.id s ->
               StatusCard.status t' = StatusCard.completed /\
               StatusCard.message t'
               = Some (match Async.message res with
                       | Some m => if m =? "" then "Concluído" else m
                       | None => "Concluído"
                       end)))
         (PageApi.tasks (Async.state w)) (PageApi.tasks (Async.state w1)) /\
       PageApi.processLoop (pre ++ s :: post) cid w
       = (let '(r, w2, t2) := PageApi.processLoop post cid w1 in
          (r, w2, t1 ++ t2))) /\
  (forall (pre : list PageSim.Step.t) (s : PageSim.Step.t)
          (post : list PageSim.Step.t) (w : Async.World PageSim.State),
     exists w1 t1,
       PageSim.simulateLoop (pre ++ [s]) w = (Async.Returned tt, w1, t1) /\
       Forall2
         (fun t t' =>
            StatusCard.id t' = StatusCard.id t /\
            StatusCard.name t' = StatusCard.name t /\
            (StatusCard.id t = PageSim.Step.id s ->
               StatusCard.status t' = StatusCard.completed /\
               StatusCard.message t' = Some "Concluído"))
         (PageSim.tasks (Async.state w)) (PageSim.tasks (Async.state w1)) /\
       PageSim.simulateLoop (pre ++ s :: post) w
       = (let '(r, w2, t2) := PageSim.simulateLoop post w1 in
          (r, w2, t1 ++ t2))).
Proof.
  split.
  - intros pre s post results res cid w Hok.
    rewrite attempts_app, map_app in Hok. simpl in Hok.
    apply app_inj_tail in Hok. destruct Hok as [Hpre Hs].
    assert (Hlast : PageApi.processLoop (pre ++ [s]) cid w
                    = (Async.Returned tt,
                       {| Async.state :=
                            Spec.apiCompleted s res
                              (Spec.apiAfter (combine pre results) (Async.state w));
                          Async.calls := S (Async.calls w + List.length pre);
                          Async.network := Async.network w |},
                       Spec.apiTrace (combine pre results) cid (Async.state w)
                       ++ [ Async.Commit
                              (Spec.apiLabelled s
                                 (Spec.apiAfter (combine pre results) (Async.state w)));
                            Async.Commit
                              (Spec.apiStarted s
                                 (Spec.apiAfter (combine pre results) (Async.state w)));
                            Async.Await (Async.Fetch (PageApi.url s cid))
                              (Spec.apiStarted s
                                 (Spec.apiAfter (combine pre results) (Async.state w)));
                            Async.Commit
                              (Spec.apiCompleted s res
                                 (Spec.apiAfter (combine pre results)
                                    (Async.state w))) ] ++ [])).
    { unfold PageApi.processLoop. rewrite forOf_app.
      rewrite (bind_returned _ _ w _ tt _ (api_loop_ok cid pre results w Hpre)).
      rewrite forOf_cons.
      erewrite bind_returned; [reflexivity|].
      rewrite api_iteration. simpl. rewrite Hs. reflexivity. }
    eexists. eexists. split; [exact Hlast|]. split.
    + cbn [Async.state PageApi.tasks Spec.apiCompleted Spec.apiSettled
           Spec.apiStarted Spec.apiLabelled].
      rewrite apiAfter_tasks, !update_map, !map_map.
      apply Forall2_map_of. intros t _.
      rewrite !updated_id, settle_id, !updated_name, settle_name.
      split; [reflexivity|]. split; [reflexivity|].
      intros Hid.
      rewrite updated_hit by (rewrite updated_id, settle_id; exact Hid).
      simpl. rewrite or_else_completedMessage. auto.
    + replace (pre ++ s :: post) with ((pre ++ [s]) ++ post)
        by (rewrite <- app_assoc; reflexivity).
      unfold PageApi.processLoop in *. rewrite forOf_app.
      rewrite (bind_returned _ _ w _ tt _ Hlast). reflexivity.
  - intros pre s post w.
    eexists. eexists. split; [apply sim_loop|]. split.
    + rewrite simAfter_app.
      cbn [Async.state PageSim.tasks Spec.simAfter Spec.simCompleted
           Spec.simSettled Spec.simStarted Spec.simLabelled].
      rewrite !update_map, map_map.
      pose proof (simAfter_ids pre (Async.state w)) as Hids.
      remember (PageSim.tasks (Spec.simAfter pre (Async.state w))) as mid.
      clear Heqmid.
      induction Hids as [|t t1 ts ts1 [Hid Hname] _ IH]; simpl; constructor;
        [|exact IH].
      rewrite !updated_id, !updated_name, Hid, Hname.
      split; [reflexivity|]. split; [reflexivity|].
      intros Heq.
      rewrite updated_hit by (rewrite updated_id, Hid; exact Heq).
      simpl. auto.
    + replace (pre ++ s :: post) with ((pre ++ [s]) ++ post)
        by (rewrite <- app_assoc; reflexivity).
      unfold PageSim.simulateLoop. rewrite forOf_app.
      rewrite (bind_returned _ _ w _ tt _ (sim_loop (pre ++ [s]) w)).
      reflexivity.
Qed.

(** The run of the page in which every request is answered with the
    message "ok": after the first two steps the loop goes on with the
    third one. *)
Lemma completion_and_continuation_witness :
  exists w1 t1,
    PageApi.processLoop
      [ PageApi.Step.mk "1" "Transcrevendo áudio..." "step1-transcribe";
        PageApi.Step.mk "2" "Processando com Gemini..." "step2-process" ]
      "abc" (Example.apiStart (Example.downFrom 3))
    = (Async.Returned tt, w1, t1) /\
    PageApi.processLoop PageApi.steps "abc"
      (Example.apiStart (Example.downFrom 3))
    = (let '(r, w2, t2) :=
         PageApi.processLoop
           [ PageApi.Step.mk "3" "Gerando sentença com Claude..."
               "step3-generate" ] "abc" w1 in
       (r, w2, t1 ++ t2)).
Proof.
  destruct (proj1 completion_and_continuation
              [PageApi.Step.mk "1" "Transcrevendo áudio..." "step1-transcribe"]
              (PageApi.Step.mk "2" "Processando com Gemini..." "step2-process")
              [PageApi.Step.mk "3" "Gerando sentença com Claude..."
                 "step3-generate"]
              [ {| Async.message := Some "ok" |} ]
              {| Async.message := Some "ok" |}
              "abc" (Example.apiStart (Example.downFrom 3)) eq_refl)
    as (w1 & t1 & Hrun & _ & Hnext).
  exists w1, t1. split; [exact Hrun|exact Hnext].
Defined.

(** C6: in both loops, when a step is reached (the steps before it
    succeeded), the trace of the run continues with the commit of the
    label of that step, then the commit that marks its task running,
    and only then the start of its operation, observed in a state whose
    [currentStep] is the name of the step and in which the task is
    running with no outcome recorded yet. *)
Theorem label_before_operation :
  (forall (pre : list PageApi.Step.t) (s : PageApi.Step.t)
          (post : list PageApi.Step.t) (results : list Async.Result)
          (cid : string) (w : Async.World PageApi.State),
     Spec.attempts pre (Async.network w) (Async.calls w) = map inr results ->
     exists w1 t1 sA sB rest,
       PageApi.processLoop pre cid w = (Async.Returned tt, w1, t1) /\
       snd (PageApi.processLoop (pre ++ s :: post) cid w)
       = t1 ++ Async.Commit sA :: Async.Commit sB
               :: Async.Await (Async.Fetch (PageApi.url s cid)) sB :: rest /\
       PageApi.currentStep sA = PageApi.Step.name s /\
       PageApi.tasks sA = PageApi.tasks (Async.state w1) /\
       PageApi.currentStep sB = PageApi.Step.name s /\
       PageApi.tasks sB
       = TaskList.update (PageApi.Step.id s) StatusCard.running
           (Some (PageApi.Step.name s)) (PageApi.tasks (Async.state w1))) /\
  (forall (pre : list PageSim.Step.t) (s : PageSim.Step.t)
          (post : list PageSim.Step.t) (w : Async.World PageSim.State),
     exists w1 t1 sA sB rest,
       PageSim.simulateLoop pre w = (Async.Returned tt, w1, t1) /\
       snd (PageSim.simulateLoop (pre ++ s :: post) w)
       = t1 ++ Async.Commit sA :: Async.Commit sB
               :: Async.Await (Async.Timeout (PageSim.Step.duration s)) sB
               :: rest /\
       PageSim.currentStep sA = PageSim.Step.name s /\
       PageSim.tasks sA = PageSim.tasks (Async.state w1) /\
       PageSim.currentStep sB = PageSim.Step.name s /\
       PageSim.tasks sB
       = TaskList.update (PageSim.Step.id s) StatusCard.running
           (Some (PageSim.Step.name s)) (PageSim.tasks (Async.state w1))).
Proof.
  split.
  - intros pre s post results cid w Hok.
    pose proof (api_loop_ok cid pre results w Hok) as Hpre.
    eexists. exists (Spec.apiTrace (combine pre results) cid (Async.state w)).
    exists (Spec.apiLabelled s
              (Spec.apiAfter (combine pre results) (Async.state w))).
    exists (Spec.apiStarted s
              (Spec.apiAfter (combine pre results) (Async.state w))).
    unfold PageApi.processLoop in *. rewrite forOf_app.
    rewrite (bind_returned _ _ w _ tt _ Hpre), forOf_cons.
    unfold Async.bind at 1. rewrite api_iteration.
    cbn [Async.state Async.calls Async.network].
    destruct (Spec.attempt s _) as [e|res].
    + eexists. split; [exact Hpre|].
      split; [reflexivity|]. repeat split; reflexivity.
    + destruct (Async.forOf post (PageApi.iteration cid) _) as [[r w3] t3].
      eexists. split; [exact Hpre|].
      split; [reflexivity|]. repeat split; reflexivity.
  - intros pre s post w.
    eexists. exists (Spec.simTrace pre (Async.state w)).
    exists (Spec.simLabelled s (Spec.simAfter pre (Async.state w))).
    exists (Spec.simStarted s (Spec.simAfter pre (Async.state w))).
    eexists. split; [apply sim_loop|].
    rewrite sim_loop, simTrace_app.
    split; [reflexivity|]. repeat split; reflexivity.
Qed.

(** The second step of the page is reached when the first request
    succeeds: "Processando com Gemini..." is the label of the state in
    which its request is in flight. *)
Lemma label_before_operation_witness :
  exists w1 t1 sA sB rest,
    PageApi.processLoop
      [PageApi.Step.mk "1" "Transcrevendo áudio..." "step1-transcribe"]
      "abc" (Example.apiStart (Example.downFrom 1))
    = (Async.Returned tt, w1, t1) /\
    snd (PageApi.processLoop PageApi.steps "abc"
           (Example.apiStart (Example.downFrom 1)))
    = t1 ++ Async.Commit sA :: Async.Commit sB
            :: Async.Await
                 (Async.Fetch "http://localhost:8000/step2-process/abc") sB
            :: rest /\
    PageApi.currentStep sB = "Processando com Gemini...".
Proof.
  destruct (proj1 label_before_operation
              [PageApi.Step.mk "1" "Transcrevendo áudio..." "step1-transcribe"]
              (PageApi.Step.mk "2" "Processando com Gemini..." "step2-process")
              [PageApi.Step.mk "3" "Gerando sentença com Claude..."
                 "step3-generate"]
              [ {| Async.message := Some "ok" |} ]
              "abc" (Example.apiStart (Example.downFrom 1)) eq_refl)
    as (w1 & t1 & sA & sB & rest & Hpre & Htrace & _ & _ & HB & _).
  exists w1, t1, sA, sB, rest.
  split; [exact Hpre|]. split; [exact Htrace|exact HB].
Defined.

(* ===================================================================== *)
(** * The runs move every task forward *)
(* ===================================================================== *)

Section Forward.

Import Async StatusCard.

Lemma chain_inv {A} (P : A -> Prop) (R Q : A -> A -> Prop) :
  (forall a b, P a -> R a b -> P b /\ Q a b) ->
  forall l a, P a -> Spec.chain R a l -> Spec.chain Q a l.
Proof.
  intros H. induction l as [|b rest IH]; simpl; intros a Pa Hc; [exact I|].
  destruct Hc as [Hab Hrest]. destruct (H a b Pa Hab) as [Pb Qab].
  split; [exact Qab|]. apply IH; assumption.
Qed.

(** One iteration on a task list whose tasks of that id are pending:
    marking them running and then settling them are forward steps,
    and the tasks of other ids are afterwards what they were. *)
Lemma started_forward (taskId : string) (m : option string) (ts : list Task) :
  (forall t, In t ts -> id t = taskId -> status t = pending) ->
  Forall2 Spec.task_step ts (TaskList.update taskId running m ts).
Proof.
  intros H. apply update_task_step. intros t Hin Hid.
  rewrite (H t Hin Hid). reflexivity.
Qed.

Lemma settled_forward (taskId : string) (st : TaskStatus)
    (m m' : option string) (ts : list Task) :
  Spec.forward running st = true ->
  Forall2 Spec.task_step
    (TaskList.update taskId running m ts)
    (TaskList.update taskId st m' (TaskList.update taskId running m ts)).
Proof.
  intros Hf. apply update_task_step. intros t Hin Hid.
  destruct (update_in_hit _ _ _ _ _ Hin Hid) as [-> _]. exact Hf.
Qed.

Lemma others_pending (taskId : string) (st : TaskStatus)
    (m m' : option string) (ts : list Task) (ids : list string) :
  ~ In taskId ids ->
  (forall t, In t ts -> In (id t) (taskId :: ids) -> status t = pending) ->
  forall t,
    In t (TaskList.update taskId st m' (TaskList.update taskId running m ts)) ->
    In (id t) ids -> status t = pending.
Proof.
  intros Hnotin H t Hin Hid.
  assert (Hne : id t <> taskId) by (intros E; apply Hnotin; rewrite <- E; exact Hid).
  apply update_in_miss in Hin; [|exact Hne].
  apply update_in_miss in Hin; [|exact Hne].
  apply H; [exact Hin|]. simpl. auto.
Qed.

Lemma sim_chain (steps : list PageSim.Step.t) :
  forall s : PageSim.State,
    NoDup (map PageSim.Step.id steps) ->
    (forall t, In t (PageSim.tasks s) ->
               In (id t) (map PageSim.Step.id steps) -> status t = pending) ->
    Spec.chain Spec.forwardSim s (snapshots (Spec.simTrace steps s)).
Proof.
  induction steps as [|step steps IH]; intros s Hnd Hinv; [exact I|].
  simpl in Hnd. apply NoDup_cons_iff in Hnd. destruct Hnd as [Hnotin Hnd].
  cbn [Spec.simTrace snapshots map app Spec.chain].
  split; [apply task_step_refl|].
  split; [apply started_forward; intros t Hin Hid; apply Hinv;
          [exact Hin|simpl; auto]|].
  split; [apply task_step_refl|].
  split; [apply settled_forward; reflexivity|].
  apply IH; [exact Hnd|].
  apply others_pending; assumption.
Qed.

Lemma api_chain (cid : string) (steps : list PageApi.Step.t) :
  forall w : World PageApi.State,
    NoDup (map PageApi.Step.id steps) ->
    (forall t, In t (PageApi.tasks (state w)) ->
               In (id t) (map PageApi.Step.id steps) -> status t = pending) ->
    Spec.chain Spec.forwardApi (state w)
      (snapshots (snd (PageApi.processLoop steps cid w))).
Proof.
  unfold PageApi.processLoop.
  induction steps as [|step steps IH]; intros w Hnd Hinv; [exact I|].
  simpl in Hnd. apply NoDup_cons_iff in Hnd. destruct Hnd as [Hnotin Hnd].
  rewrite forOf_cons. unfold bind at 1. rewrite api_iteration.
  destruct (Spec.attempt step _) as [e|res].
  - cbn [snd snapshots map Spec.chain].
    split; [apply task_step_refl|].
    split; [apply started_forward; intros t Hin Hid; apply Hinv;
            [exact Hin|simpl; auto]|].
    split; [apply task_step_refl|].
    split; [apply settled_forward; reflexivity|exact I].
  - match goal with
    | |- context [forOf steps _ ?w2] =>
        specialize (IH w2 Hnd); destruct (forOf steps _ w2) as [[r w3] t3]
    end.
    cbn [snd snapshots map app Spec.chain] in *.
    split; [apply task_step_refl|].
    split; [apply started_forward; intros t Hin Hid; apply Hinv;
            [exact Hin|simpl; auto]|].
    split; [apply task_step_refl|].
    split; [apply settled_forward; reflexivity|].
    apply IH. apply others_pending; assumption.
Qed.

(** A forward step of a list of at most 200 tasks does not lower
    the percentage. *)
Lemma step_percent (ts ts' : list Task) :
  (totalTasks ts <= 200)%nat ->
  Forall2 Spec.task_step ts ts' ->
  (totalTasks ts' <= 200)%nat /\ Spec.percent_le ts ts'.
Proof.
  intros Hb Hstep. destruct (task_step_counts ts ts' Hstep) as [Hlen Hle].
  split; [lia|]. apply percent_le_of_counts; assumption.
Qed.

End Forward.

Section HandleProcess.

Import Async StatusCard.

Lemma try_catch_returned {S A} (m : M S A) (h : Js.Error -> M S A)
    (w w1 : World S) (a : A) (t1 : list (Event S)) :
  m w = (Returned a, w1, t1) -> try_catch m h w = (Returned a, w1, t1).
Proof. intros H. unfold try_catch. rewrite H. reflexivity. Qed.

Lemma try_finally_run {S A} (m : M S A) (f : M S unit)
    (w w1 w2 : World S) (r : Outcome A) (t1 t2 : list (Event S)) :
  m w = (r, w1, t1) -> f w1 = (Returned tt, w2, t2) ->
  try_finally m f w = (r, w2, t1 ++ t2).
Proof. intros H1 H2. unfold try_finally. rewrite H1, H2. reflexivity. Qed.

Lemma simulateProcessing_run (w : World PageSim.State) :
  exists sEnd,
    PageSim.simulateProcessing w
    = (Returned tt,
       {| state := sEnd; calls := calls w; network := network w |},
       Spec.simTrace PageSim.steps (state w) ++ [Commit sEnd]) /\
    PageSim.tasks sEnd
    = PageSim.tasks (Spec.simAfter PageSim.steps (state w)).
Proof.
  eexists. split.
  - unfold PageSim.simulateProcessing.
    rewrite (bind_returned _ _ w _ tt _ (sim_loop PageSim.steps w)).
    unfold PageSim.setCurrentStep, setState. cbv beta iota zeta.
    cbn [state calls network]. reflexivity.
  - reflexivity.
Qed.

(** [handleProcess] of the timer-driven page, from any state: the
    two commits that start the run, the trace of the loop over the
    five steps, and the two commits that end it, which leave the
    tasks alone. *)
Lemma handleProcess_run (w : World PageSim.State) :
  exists w' s0 sEnd sOff,
    PageSim.handleProcess w
    = (Returned tt, w',
       Commit s0 :: Commit (Spec.simReady (state w))
         :: (Spec.simTrace PageSim.steps (Spec.simReady (state w))
             ++ [Commit sEnd]) ++ [Commit sOff]) /\
    PageSim.tasks sEnd
    = PageSim.tasks (Spec.simAfter PageSim.steps (Spec.simReady (state w))) /\
    PageSim.tasks sOff = PageSim.tasks sEnd.
Proof.
  destruct (simulateProcessing_run
              {| state := Spec.simReady (state w);
                 calls := calls w; network := network w |})
    as (sEnd & Hsim & Htasks).
  cbn [state calls network] in Hsim, Htasks.
  exists {| state := {| PageSim.uploadedFiles := PageSim.uploadedFiles sEnd;
                        PageSim.isProcessing := false;
                        PageSim.tasks := PageSim.tasks sEnd;
                        PageSim.currentStep := PageSim.currentStep sEnd |};
            calls := calls w; network := network w |}.
  eexists. exists sEnd.
  exists {| PageSim.uploadedFiles := PageSim.uploadedFiles sEnd;
            PageSim.isProcessing := false;
            PageSim.tasks := PageSim.tasks sEnd;
            PageSim.currentStep := PageSim.currentStep sEnd |}.
  split; [|split; [exact Htasks|reflexivity]].
  unfold PageSim.handleProcess.
  erewrite bind_returned by reflexivity.
  erewrite bind_returned by reflexivity.
  rewrite (try_finally_run _ _ _ _ _ _ _ _
             (try_catch_returned _ _ _ _ _ _ Hsim) eq_refl).
  reflexivity.
Qed.

Lemma simTrace_last (steps : list PageSim.Step.t) :
  forall s, last (snapshots (Spec.simTrace steps s)) s = Spec.simAfter steps s.
Proof.
  induction steps as [|step steps IH]; intros s; [reflexivity|].
  cbn [Spec.simTrace snapshots map app Spec.simAfter].
  rewrite <- IH.
  change (last (?a :: ?b :: ?c :: ?d :: ?l) s) with (last (d :: l) s).
  apply last_cons.
Qed.

(** The loop of the timer-driven page never lowers the percentage. *)
Lemma sim_rising (steps : list PageSim.Step.t) (s : PageSim.State) :
  NoDup (map PageSim.Step.id steps) ->
  (forall t, In t (PageSim.tasks s) ->
             In (id t) (map PageSim.Step.id steps) -> status t = pending) ->
  (totalTasks (PageSim.tasks s) <= 200)%nat ->
  Spec.chain Spec.risingSim s (snapshots (Spec.simTrace steps s)).
Proof.
  intros Hnd Hinv Hb.
  apply (chain_inv
           (fun s => (totalTasks (PageSim.tasks s) <= 200)%nat)
           Spec.forwardSim Spec.risingSim).
  - intros a b Ha Hab. apply step_percent; assumption.
  - exact Hb.
  - apply sim_chain; assumption.
Qed.

Lemma steps_distinct : NoDup (map PageSim.Step.id PageSim.steps).
Proof. repeat constructor; simpl; intuition discriminate. Qed.

Lemma newTasks_pending (t : Task) : In t PageSim.newTasks -> status t = pending.
Proof.
  intros Hin. simpl in Hin.
  repeat (destruct Hin as [<-|Hin]; [reflexivity|]). contradiction.
Qed.

End HandleProcess.

(** C4: within one run the percentage never falls.  For both loops,
    over any steps with distinct ids, started on a list (of at most 200
    tasks) in which the tasks the steps address are pending, as
    [initializeTasks] leaves them: along the successive states of the
    run, from the initial one on, each percentage is defined, lies in
    [0, 100] and is not above the next one.  And so for every run of
    [handleProcess] of the timer-driven page, whatever the state it
    starts in, from the state [initializeTasks] commits to its end. *)
Theorem progress_monotone :
  (forall (steps : list PageSim.Step.t) (w : Async.World PageSim.State),
     NoDup (map PageSim.Step.id steps) ->
     (forall t, In t (PageSim.tasks (Async.state w)) ->
                In (StatusCard.id t) (map PageSim.Step.id steps) ->
                StatusCard.status t = StatusCard.pending) ->
     (StatusCard.totalTasks (PageSim.tasks (Async.state w)) <= 200)%nat ->
     Spec.chain Spec.risingSim (Async.state w)
       (Async.snapshots (snd (PageSim.simulateLoop steps w)))) /\
  (forall (steps : list PageApi.Step.t) (cid : string)
          (w : Async.World PageApi.State),
     NoDup (map PageApi.Step.id steps) ->
     (forall t, In t (PageApi.tasks (Async.state w)) ->
                In (StatusCard.id t) (map PageApi.Step.id steps) ->
                StatusCard.status t = StatusCard.pending) ->
     (StatusCard.totalTasks (PageApi.tasks (Async.state w)) <= 200)%nat ->
     Spec.chain Spec.risingApi (Async.state w)
       (Async.snapshots (snd (PageApi.processLoop steps cid w)))) /\
  (forall w : Async.World PageSim.State,
     exists w' s0 s1 rest,
       PageSim.handleProcess w
       = (Async.Returned tt, w',
          Async.Commit s0 :: Async.Commit s1 :: rest) /\
       PageSim.tasks s1 = PageSim.newTasks /\
       Spec.chain Spec.risingSim s1 (Async.snapshots rest)).
Proof.
  split; [|split].
  - intros steps w Hnd Hinv Hb. rewrite sim_loop. cbn [snd].
    apply sim_rising; assumption.
  - intros steps cid w Hnd Hinv Hb.
    apply (chain_inv
             (fun s => (StatusCard.totalTasks (PageApi.tasks s) <= 200)%nat)
             Spec.forwardApi Spec.risingApi).
    + intros a b Ha Hab. apply step_percent; assumption.
    + exact Hb.
    + apply api_chain; assumption.
  - intros w.
    destruct (handleProcess_run w) as (w' & s0 & sEnd & sOff & Hrun & HEnd & HOff).
    exists w', s0, (Spec.simReady (Async.state w)).
    eexists. split; [exact Hrun|]. split; [reflexivity|].
    assert (Hloop : Spec.chain Spec.risingSim (Spec.simReady (Async.state w))
                      (Async.snapshots
                         (Spec.simTrace PageSim.steps
                            (Spec.simReady (Async.state w))))).
    { apply sim_rising.
      - exact steps_distinct.
      - intros t Hin _. apply newTasks_pending. exact Hin.
      - simpl. lia. }
    assert (Hlen : StatusCard.totalTasks
                     (PageSim.tasks
                        (Spec.simAfter PageSim.steps
                           (Spec.simReady (Async.state w)))) = 5%nat).
    { pose proof (simAfter_ids PageSim.steps (Spec.simReady (Async.state w)))
        as Hids.
      apply Forall2_length in Hids. unfold StatusCard.totalTasks.
      rewrite <- Hids. reflexivity. }
    rewrite !snapshots_app.
    apply chain_app; [apply chain_app; [exact Hloop|]|].
    + rewrite simTrace_last.
      cbn [Async.snapshots map Spec.chain]. split; [|exact I].
      unfold Spec.risingSim. rewrite HEnd.
      apply percent_le_of_counts; [reflexivity|rewrite Hlen; lia|lia].
    + change (Async.snapshots [Async.Commit sEnd]) with [sEnd].
      rewrite last_last.
      cbn [Async.snapshots map Spec.chain]. split; [|exact I].
      unfold Spec.risingSim. rewrite HOff.
      apply percent_le_of_counts; [reflexivity|rewrite HEnd, Hlen; lia|lia].
Qed.

(** The run of the five steps of the timer-driven page on the five
    tasks of [initializeTasks]. *)
Lemma progress_monotone_witness :
  Spec.chain Spec.risingSim (Async.state Example.simStart)
    (Async.snapshots (snd (PageSim.simulateLoop PageSim.steps Example.simStart))).
Proof.
  apply (proj1 progress_monotone PageSim.steps Example.simStart).
  - repeat constructor; simpl; intuition discriminate.
  - intros t Hin _. simpl in Hin.
    repeat (destruct Hin as [<-|Hin]; [reflexivity|]). contradiction.
  - simpl. lia.
Defined.

(** C1 (amended): the status update has no check and never fails.  In
    both pages, whatever the status of the task at a position whose id
    is [taskId], terminal or not, [updateTaskStatus taskId status
    message] returns normally and the task at that position then has
    the new status and message.  The forward-only order is kept by the
    loops that call it: in a run of either loop over steps with
    distinct ids, started where the tasks they address are pending,
    between two successive states every task is either untouched or
    moved along pending -> running, running -> completed or
    running -> error. *)
Theorem update_unchecked_runs_forward :
  (forall (taskId : string) (st : StatusCard.TaskStatus) (msg : option string)
          (w : Async.World PageSim.State) (i : nat) (t : StatusCard.Task),
     nth_error (PageSim.tasks (Async.state w)) i = Some t ->
     StatusCard.id t = taskId ->
     exists w',
       PageSim.updateTaskStatus taskId st msg w
       = (Async.Returned tt, w', [Async.Commit (Async.state w')]) /\
       nth_error (PageSim.tasks (Async.state w')) i
       = Some {| StatusCard.id := StatusCard.id t;
                 StatusCard.name := StatusCard.name t;
                 StatusCard.status := st;
                 StatusCard.message := msg |}) /\
  (forall (taskId : string) (st : StatusCard.TaskStatus) (msg : option string)
          (w : Async.World PageApi.State) (i : nat) (t : StatusCard.Task),
     nth_error (PageApi.tasks (Async.state w)) i = Some t ->
     StatusCard.id t = taskId ->
     exists w',
       PageApi.updateTaskStatus taskId st msg w
       = (Async.Returned tt, w', [Async.Commit (Async.state w')]) /\
       nth_error (PageApi.tasks (Async.state w')) i
       = Some {| StatusCard.id := StatusCard.id t;
                 StatusCard.name := StatusCard.name t;
                 StatusCard.status := st;
                 StatusCard.message := msg |}) /\
  (forall (steps : list PageSim.Step.t) (w : Async.World PageSim.State),
     NoDup (map PageSim.Step.id steps) ->
     (forall t, In t (PageSim.tasks (Async.state w)) ->
                In (StatusCard.id t) (map PageSim.Step.id steps) ->
                StatusCard.status t = StatusCard.pending) ->
     Spec.chain Spec.forwardSim (Async.state w)
       (Async.snapshots (snd (PageSim.simulateLoop steps w)))) /\
  (forall (steps : list PageApi.Step.t) (cid : string)
          (w : Async.World PageApi.State),
     NoDup (map PageApi.Step.id steps) ->
     (forall t, In t (PageApi.tasks (Async.state w)) ->
                In (StatusCard.id t) (map PageApi.Step.id steps) ->
                StatusCard.status t = StatusCard.pending) ->
     Spec.chain Spec.forwardApi (Async.state w)
       (Async.snapshots (snd (PageApi.processLoop steps cid w)))).
Proof.
  split; [|split; [|split]].
  - intros taskId st msg w i t Hnth Hid.
    exists (snd (fst (PageSim.updateTaskStatus taskId st msg w))).
    split; [reflexivity|]. simpl.
    rewrite update_nth, Hnth. simpl. f_equal. apply updated_hit. exact Hid.
  - intros taskId st msg w i t Hnth Hid.
    exists (snd (fst (PageApi.updateTaskStatus taskId st msg w))).
    split; [reflexivity|]. simpl.
    rewrite update_nth, Hnth. simpl. f_equal. apply updated_hit. exact Hid.
  - intros steps w Hnd Hinv. rewrite sim_loop. cbn [snd].
    apply sim_chain; assumption.
  - intros steps cid w Hnd Hinv. apply api_chain; assumption.
Qed.

(** The completed task "1" of a finished run accepts the status
    pending; and the run of the three steps of the page, whatever the
    network answers, moves every task forward. *)
Lemma update_unchecked_runs_forward_witness :
  (exists w',
     PageApi.updateTaskStatus "1" StatusCard.pending None Example.apiDone
     = (Async.Returned tt, w', [Async.Commit (Async.state w')]) /\
     nth_error (PageApi.tasks (Async.state w')) 1
     = Some {| StatusCard.id := "1";
               StatusCard.name := "Transcrição de áudio";
               StatusCard.status := StatusCard.pending;
               StatusCard.message := None |}) /\
  Spec.chain Spec.forwardApi
    (Async.state (Example.apiStart (Example.downFrom 1)))
    (Async.snapshots
       (snd (PageApi.processLoop PageApi.steps "abc"
               (Example.apiStart (Example.downFrom 1))))).
Proof.
  destruct update_unchecked_runs_forward as (_ & Hupd & _ & Hrun).
  split.
  - exact (Hupd "1" StatusCard.pending None Example.apiDone 1%nat
             {| StatusCard.id := "1";
                StatusCard.name := "Transcrição de áudio";
                StatusCard.status := StatusCard.completed;
                StatusCard.message := Some "Concluído" |}
             eq_refl eq_refl).
  - apply (Hrun PageApi.steps "abc" (Example.apiStart (Example.downFrom 1))).
    + repeat constructor; simpl; intuition discriminate.
    + intros t Hin _. simpl in Hin.
      repeat (destruct Hin as [<-|Hin]; [reflexivity|]). contradiction.
Defined.

(* ===================================================================== *)
(** * The retained inputs (UploadZone) *)
(* ===================================================================== *)

Section Uploads.

Import UploadZone.

Let consistent : State -> Prop := Spec.consistent.

Lemma consistent_initial : consistent initial.
Proof. split; [reflexivity|]. intros [] u H; discriminate H. Qed.

Lemma consistent_handleDrop f ty rnd st :
  consistent st -> consistent (handleDrop f ty rnd st).
Proof.
  intros [Hlist Hty]. destruct ty; (split; [reflexivity|]);
    intros [] u H; simpl in H;
    try (injection H as <-; reflexivity);
    first [exact (Hty processo u H) | exact (Hty audiencia u H)].
Qed.

Lemma consistent_act st a : consistent st -> consistent (act st a).
Proof.
  intros H. destruct a as [ty [|f others] rnd|[]]; simpl.
  - exact H.
  - destruct (validateFile ty f); [apply consistent_handleDrop|]; exact H.
  - destruct H as [_ Hty]. split; [reflexivity|].
    intros [] u Hu; simpl in Hu; [discriminate|exact (Hty audiencia u Hu)].
  - destruct H as [_ Hty]. split; [simpl; rewrite app_nil_r; reflexivity|].
    intros [] u Hu; simpl in Hu; [exact (Hty processo u Hu)|discriminate].
Qed.

Lemma consistent_fold actions :
  forall st, consistent st -> consistent (fold_left act actions st).
Proof.
  induction actions as [|a actions IH]; intros st H; simpl; [exact H|].
  apply IH. apply consistent_act. exact H.
Qed.

(** In a consistent state the files of a role in the list are the
    content of the cell of that role. *)
Lemma ofRole_slot st ty :
  consistent st -> ofRole ty (uploadedFiles st) = push_if (slot ty st).
Proof.
  intros [Hlist Hty]. rewrite Hlist. unfold ofRole.
  pose proof (Hty processo) as Hp. pose proof (Hty audiencia) as Ha.
  destruct st as [[p|] [a|] l]; simpl in *;
    try rewrite (Hp p eq_refl); try rewrite (Ha a eq_refl);
    destruct ty; reflexivity.
Qed.

End Uploads.

(** C7: at most one file per role is retained.  After any sequence of
    drops, selections and removals, the list handed to the page holds
    at most one file of each role: it is the cell of the document
    followed by the cell of the recording, each holding a file of its
    role.  From any such state, an accepted upload of a role puts the
    new file in the cell of that role, in place of what was there, and
    the new file is then the only file of that role in the list; the
    cell and the file of the other role are unchanged. *)
Theorem one_file_per_role (actions : list UploadZone.Action) :
  (forall ty,
     (List.length
        (UploadZone.ofRole ty (UploadZone.uploadedFiles (UploadZone.run actions)))
      <= 1)%nat) /\
  UploadZone.uploadedFiles (UploadZone.run actions)
  = UploadZone.push_if (UploadZone.processoFile (UploadZone.run actions))
    ++ UploadZone.push_if (UploadZone.audienciaFile (UploadZone.run actions)) /\
  (forall ty u,
     UploadZone.slot ty (UploadZone.run actions) = Some u ->
     UploadZone.type u = ty) /\
  (forall ty f others rnd,
     UploadZone.validateFile ty f = true ->
     let newFile := {| UploadZone.file := f; UploadZone.type := ty;
                       UploadZone.id := rnd |} in
     let st' := UploadZone.act (UploadZone.run actions)
                  (UploadZone.Drop ty (f :: others) rnd) in
     UploadZone.slot ty st' = Some newFile /\
     UploadZone.ofRole ty (UploadZone.uploadedFiles st') = [newFile] /\
     (forall ty', ty' <> ty ->
        UploadZone.slot ty' st' = UploadZone.slot ty' (UploadZone.run actions) /\
        UploadZone.ofRole ty' (UploadZone.uploadedFiles st')
        = UploadZone.ofRole ty' (UploadZone.uploadedFiles (UploadZone.run actions)))).
Proof.
  assert (Hc : Spec.consistent (UploadZone.run actions))
    by (apply consistent_fold, consistent_initial).
  split; [|split; [exact (proj1 Hc)|split; [exact (proj2 Hc)|]]].
  - intros ty. rewrite (ofRole_slot _ ty Hc).
    destruct (UploadZone.slot ty (UploadZone.run actions)); simpl; lia.
  - intros ty f others rnd Hvalid newFile st'.
    assert (Hc' : Spec.consistent st')
      by (apply consistent_act; exact Hc).
    assert (Hst' : st' = UploadZone.handleDrop f ty rnd (UploadZone.run actions))
      by (unfold st'; simpl; rewrite Hvalid; reflexivity).
    assert (Hslot : UploadZone.slot ty st' = Some newFile)
      by (rewrite Hst'; destruct ty; reflexivity).
    split; [exact Hslot|].
    split; [rewrite (ofRole_slot _ ty Hc'), Hslot; reflexivity|].
    intros ty' Hne.
    assert (Hother : UploadZone.slot ty' st'
                     = UploadZone.slot ty' (UploadZone.run actions))
      by (rewrite Hst'; destruct ty, ty'; try reflexivity; contradiction).
    split; [exact Hother|].
    rewrite (ofRole_slot _ ty' Hc'), (ofRole_slot _ ty' Hc), Hother.
    reflexivity.
Qed.

(** A document and a recording are retained; a second document then
    takes the place of the first and the recording stays. *)
Lemma one_file_per_role_witness :
  let st := UploadZone.run Example.twoUploads in
  let st' := UploadZone.act st
               (UploadZone.Drop UploadZone.processo
                  [Example.secondDocument] "id3") in
  UploadZone.validateFile UploadZone.processo Example.secondDocument = true /\
  UploadZone.slot UploadZone.processo st'
  = Some {| UploadZone.file := Example.secondDocument;
            UploadZone.type := UploadZone.processo;
            UploadZone.id := "id3" |} /\
  UploadZone.slot UploadZone.audiencia st'
  = UploadZone.slot UploadZone.audiencia st /\
  UploadZone.slot UploadZone.audiencia st
  = Some {| UploadZone.file := Example.recording;
            UploadZone.type := UploadZone.audiencia;
            UploadZone.id := "id2" |}.
Proof.
  intros st st'.
  assert (Hvalid : UploadZone.validateFile UploadZone.processo
                     Example.secondDocument = true) by reflexivity.
  destruct (one_file_per_role Example.twoUploads) as (_ & _ & _ & Hdrop).
  destruct (Hdrop UploadZone.processo Example.secondDocument [] "id3" Hvalid)
    as (Hslot & _ & Hother).
  destruct (Hother UploadZone.audiencia ltac:(discriminate)) as [Hkeep _].
  split; [exact Hvalid|]. split; [exact Hslot|].
  split; [exact Hkeep|reflexivity].
Defined.

(* ===================================================================== *)
(** * The results section of the page *)
(* ===================================================================== *)

Section Results.

Import StatusCard.

Lemma everyCompleted_spec (ts : list Task) :
  TaskList.everyCompleted ts = true
  <-> (forall t, In t ts -> status t = completed).
Proof.
  unfold TaskList.everyCompleted. rewrite forallb_forall.
  split; intros H t Hin; specialize (H t Hin);
    destruct (status t); simpl in *; congruence.
Qed.

Lemma truthy_spec (s : string) : Js.truthy s = true <-> s <> "".
Proof.
  unfold Js.truthy. destruct (String.eqb_spec s ""); simpl; split;
    intros H; congruence.
Qed.

End Results.

(** C9: the section that offers the generated document (the buttons
    opening [`${API_URL}/download/${caseId}/sentenca`]) is rendered
    exactly when the task list is not empty, every task is completed
    and a case id has been assigned; in particular, whenever it is
    rendered, the last task of the list, that of the terminal stage,
    is completed. *)
Theorem results_only_after_completion (s : PageApi.State) :
  (PageApi.resultsSection s = true <->
     PageApi.tasks s <> [] /\
     (forall t, In t (PageApi.tasks s) ->
                StatusCard.status t = StatusCard.completed) /\
     PageApi.caseId s <> "") /\
  (PageApi.resultsSection s = true ->
     exists before final,
       PageApi.tasks s = before ++ [final] /\
       StatusCard.status final = StatusCard.completed).
Proof.
  assert (Hiff : PageApi.resultsSection s = true <->
            PageApi.tasks s <> [] /\
            (forall t, In t (PageApi.tasks s) ->
                       StatusCard.status t = StatusCard.completed) /\
            PageApi.caseId s <> "").
  { unfold PageApi.resultsSection.
    rewrite !andb_true_iff, everyCompleted_spec, truthy_spec, Nat.ltb_lt.
    destruct (PageApi.tasks s) as [|t ts]; simpl.
    - split; [intros [[H _] _]; lia|intros [H _]; congruence].
    - split; [intros [[_ H] Hc]|intros [_ [H Hc]]]; repeat split; auto;
        try discriminate; lia. }
  split; [exact Hiff|].
  intros H. apply Hiff in H. destruct H as (Hne & Hall & _).
  destruct (exists_last Hne) as (before & final & Heq).
  exists before, final. split; [exact Heq|].
  apply Hall. rewrite Heq. apply in_or_app. simpl. auto.
Qed.

(** The page of a finished run for case "abc" shows the section, and
    its last task, "Geração da sentença", is completed. *)
Lemma results_only_after_completion_witness :
  PageApi.resultsSection (Async.state Example.apiDone) = true /\
  exists before final,
    PageApi.tasks (Async.state Example.apiDone) = before ++ [final] /\
    StatusCard.status final = StatusCard.completed.
Proof.
  assert (H : PageApi.resultsSection (Async.state Example.apiDone) = true)
    by reflexivity.
  split; [exact H|].
  exact (proj2 (results_only_after_completion (Async.state Example.apiDone)) H).
Defined.

(* ===================================================================== *)
(** * Further properties: the status update *)
(* ===================================================================== *)

Section UpdateAlgebra.

Import StatusCard.

Lemma updated_twice taskId s1 m1 s2 m2 (t : Task) :
  TaskList.updated taskId s2 m2 (TaskList.updated taskId s1 m1 t)
  = TaskList.updated taskId s2 m2 t.
Proof.
  unfold TaskList.updated.
  destruct (id t =? taskId) eqn:E; simpl; rewrite E; reflexivity.
Qed.

Lemma updated_swap id1 id2 s1 m1 s2 m2 (t : Task) :
  id1 <> id2 ->
  TaskList.updated id1 s1 m1 (TaskList.updated id2 s2 m2 t)
  = TaskList.updated id2 s2 m2 (TaskList.updated id1 s1 m1 t).
Proof.
  intros Hne. unfold TaskList.updated.
  destruct (String.eqb_spec (id t) id1) as [E1|E1],
           (String.eqb_spec (id t) id2) as [E2|E2]; simpl.
  - congruence.
  - destruct (String.eqb_spec (id t) id1); [|contradiction].
    destruct (String.eqb_spec (id t) id2); [contradiction|reflexivity].
  - destruct (String.eqb_spec (id t) id1); [contradiction|].
    destruct (String.eqb_spec (id t) id2); [reflexivity|contradiction].
  - destruct (String.eqb_spec (id t) id1); [contradiction|].
    destruct (String.eqb_spec (id t) id2); [contradiction|reflexivity].
Qed.

Lemma update_twice taskId s1 m1 s2 m2 (ts : list Task) :
  TaskList.update taskId s2 m2 (TaskList.update taskId s1 m1 ts)
  = TaskList.update taskId s2 m2 ts.
Proof.
  rewrite !update_map, map_map. apply map_ext. intros t. apply updated_twice.
Qed.

Lemma update_absent taskId st msg (ts : list Task) :
  ~ In taskId (map id ts) -> TaskList.update taskId st msg ts = ts.
Proof.
  intros H. rewrite update_map.
  rewrite <- (map_id ts) at 2. apply map_ext_in.
  intros t Hin. apply updated_miss.
  intros E. apply H. rewrite <- E. apply in_map. exact Hin.
Qed.

Lemma update_names taskId st msg (ts : list Task) :
  map name (TaskList.update taskId st msg ts) = map name ts.
Proof.
  rewrite update_map, map_map. apply map_ext. apply updated_name.
Qed.

End UpdateAlgebra.

(** X1: status updates compose the way assignments do.  Two updates
    of the same id amount to the last one (so repeating an update
    changes nothing), and updates of two different ids give the same
    list in either order. *)
Theorem updates_compose (taskId : string) :
  (forall s1 m1 s2 m2 (ts : list StatusCard.Task),
     TaskList.update taskId s2 m2 (TaskList.update taskId s1 m1 ts)
     = TaskList.update taskId s2 m2 ts) /\
  (forall id2 s1 m1 s2 m2 (ts : list StatusCard.Task),
     taskId <> id2 ->
     TaskList.update taskId s1 m1 (TaskList.update id2 s2 m2 ts)
     = TaskList.update id2 s2 m2 (TaskList.update taskId s1 m1 ts)).
Proof.
  split.
  - intros s1 m1 s2 m2 ts. apply update_twice.
  - intros id2 s1 m1 s2 m2 ts Hne. rewrite !update_map, !map_map.
    apply map_ext. intros t. apply updated_swap. exact Hne.
Qed.

(** Marking task "2" of the page completed and task "1" running, in
    either order. *)
Lemma updates_compose_witness :
  TaskList.update "1" StatusCard.running None
    (TaskList.update "2" StatusCard.completed (Some "ok") PageApi.newTasks)
  = TaskList.update "2" StatusCard.completed (Some "ok")
      (TaskList.update "1" StatusCard.running None PageApi.newTasks).
Proof.
  apply (proj2 (updates_compose "1")). discriminate.
Defined.

(** X2: a status update never adds, drops, reorders or renames tasks:
    the ids and the names of the list are the same, in the same order.
    An id no task has makes the update do nothing, silently; an id
    some task has leaves a task of that id in the new status. *)
Theorem update_keeps_the_list
    (taskId : string) (st : StatusCard.TaskStatus) (msg : option string)
    (ts : list StatusCard.Task) :
  map StatusCard.id (TaskList.update taskId st msg ts) = map StatusCard.id ts /\
  map StatusCard.name (TaskList.update taskId st msg ts)
  = map StatusCard.name ts /\
  (~ In taskId (map StatusCard.id ts) ->
   TaskList.update taskId st msg ts = ts) /\
  (In taskId (map StatusCard.id ts) ->
   In (taskId, st) (More.statuses (TaskList.update taskId st msg ts))).
Proof.
  split; [apply update_ids|]. split; [apply update_names|].
  split; [apply update_absent|].
  intros Hin. apply in_map_iff in Hin. destruct Hin as (t & Hid & Hin).
  unfold More.statuses. rewrite update_map, map_map.
  apply in_map_iff. exists t. split; [|exact Hin].
  rewrite (updated_hit _ _ _ t Hid). simpl. rewrite Hid. reflexivity.
Qed.

(** The page has no task "7": updating it changes nothing; it has a
    task "2". *)
Lemma update_keeps_the_list_witness :
  TaskList.update "7" StatusCard.error (Some "x") PageApi.newTasks
  = PageApi.newTasks /\
  In ("2", StatusCard.error)
     (More.statuses
        (TaskList.update "2" StatusCard.error (Some "x") PageApi.newTasks)).
Proof.
  destruct (update_keeps_the_list "7" StatusCard.error (Some "x")
              PageApi.newTasks) as (_ & _ & Habsent & _).
  destruct (update_keeps_the_list "2" StatusCard.error (Some "x")
              PageApi.newTasks) as (_ & _ & _ & Hpresent).
  split.
  - apply Habsent. simpl. intuition discriminate.
  - apply Hpresent. simpl. auto.
Defined.

(* ===================================================================== *)
(** * Further properties: the progress card *)
(* ===================================================================== *)

Section Extremes.

Import StatusCard.

Lemma forallb_seq_from (f : nat -> bool) (a n i : nat) :
  forallb f (seq a n) = true -> (a <= i < a + n)%nat -> f i = true.
Proof.
  intros H Hi. rewrite forallb_forall in H. apply H. apply in_seq. exact Hi.
Qed.

Lemma extremes_below_200 : More.extremesUpTo 199 = true.
Proof. vm_compute. reflexivity. Qed.

Lemma bar_up_to_200 : More.barUpTo 200 = true.
Proof. vm_compute. reflexivity. Qed.

Lemma extremesUpTo_at (bound t c : nat) :
  More.extremesUpTo bound = true ->
  (0 < t <= bound)%nat -> (c <= t)%nat -> More.extremesAt t c = true.
Proof.
  unfold More.extremesUpTo. intros H Ht Hc.
  apply (forallb_seq (More.extremesAt t) (S t) c); [|lia].
  apply (forallb_seq_from _ 1 bound t H). lia.
Qed.

Lemma barUpTo_at (bound t c : nat) :
  More.barUpTo bound = true ->
  (t <= bound)%nat -> (c <= t)%nat -> More.barAt t c = true.
Proof.
  unfold More.barUpTo. intros H Ht Hc.
  apply (forallb_seq (More.barAt t) (S t) c); [|lia].
  apply (forallb_seq _ (S bound) t H). lia.
Qed.

(** All tasks are completed exactly when the two counts agree. *)
Lemma everyCompleted_counts (ts : list Task) :
  TaskList.everyCompleted ts = true <-> completedTasks ts = totalTasks ts.
Proof.
  unfold TaskList.everyCompleted, completedTasks, totalTasks.
  induction ts as [|t ts IH]; simpl; [tauto|].
  pose proof (filter_length_le
                (fun t => TaskStatus_eqb (status t) completed) ts) as Hle.
  destruct (TaskStatus_eqb (status t) completed); simpl.
  - rewrite IH. split; intros H; lia.
  - split; [discriminate|]. intros H. lia.
Qed.

End Extremes.

(** X3: for a list of 1 to 199 tasks the card shows 0% exactly when no
    task is completed and 100% exactly when every task is completed.
    The bound is sharp: with 199 of 200 tasks completed the card
    already shows 100%. *)
Theorem percent_extremes :
  (forall tasks : list StatusCard.Task,
     (0 < StatusCard.totalTasks tasks < 200)%nat ->
     (StatusCard.percent tasks = Some 0%Z
      <-> StatusCard.completedTasks tasks = 0%nat) /\
     (StatusCard.percent tasks = Some 100%Z
      <-> TaskList.everyCompleted tasks = true)) /\
  (let tasks := repeat Example.doneTask 199 ++ [Example.waitingTask] in
   StatusCard.percent tasks = Some 100%Z /\
   TaskList.everyCompleted tasks = false).
Proof.
  split.
  - intros tasks Hlen.
    assert (Hin : (0 < StatusCard.totalTasks tasks <= 199)%nat) by lia.
    pose proof (extremesUpTo_at 199 _ _ extremes_below_200
                  Hin (completedTasks_le_total tasks)) as H.
    unfold More.extremesAt in H.
    rewrite everyCompleted_counts, percent_percentOf.
    destruct (Spec.percentOf _ _) as [p|]; [|discriminate].
    apply andb_true_iff in H. destruct H as [H0 H100].
    apply Bool.eqb_prop in H0. apply Bool.eqb_prop in H100.
    split.
    + rewrite <- Nat.eqb_eq, <- H0, Z.eqb_eq.
      split; [intros E; injection E; auto|intros ->; reflexivity].
    + rewrite <- Nat.eqb_eq, <- H100, Z.eqb_eq.
      split; [intros E; injection E; auto|intros ->; reflexivity].
  - vm_compute. split; reflexivity.
Qed.

(** The example of the specification: 2 of 4 completed is neither 0%
    nor 100%. *)
Lemma percent_extremes_witness :
  let tasks := [Example.doneTask; Example.failedTask;
                Example.doneTask; Example.waitingTask] in
  (StatusCard.percent tasks = Some 0%Z
   <-> StatusCard.completedTasks tasks = 0%nat) /\
  (StatusCard.percent tasks = Some 100%Z
   <-> TaskList.everyCompleted tasks = true).
Proof.
  intros tasks. apply (proj1 percent_extremes tasks).
  unfold tasks. simpl. lia.
Defined.

(** X4: for a list of at most 200 tasks the clamping of the bar is
    idle: the width is the progress itself, and it lies between 0 and
    100. *)
Theorem bar_width_in_range (tasks : list StatusCard.Task) :
  (StatusCard.totalTasks tasks <= 200)%nat ->
  PrimFloat.eqb (StatusCard.barWidth tasks) (StatusCard.progress tasks) = true /\
  PrimFloat.leb 0%float (StatusCard.barWidth tasks) = true /\
  PrimFloat.leb (StatusCard.barWidth tasks) 100%float = true.
Proof.
  intros Hlen.
  pose proof (barUpTo_at 200 _ _ bar_up_to_200 Hlen
                (completedTasks_le_total tasks)) as H.
  unfold More.barAt in H. cbv zeta in H.
  rewrite !andb_true_iff in H. destruct H as [[Heq H0] H100].
  rewrite barWidth_progressOf.
  change (StatusCard.progress tasks)
    with (Spec.progressOf (StatusCard.completedTasks tasks)
                          (StatusCard.totalTasks tasks)).
  auto.
Qed.

(** The five tasks of the timer-driven page, one of them completed. *)
Lemma bar_width_in_range_witness :
  let tasks := TaskList.update "1" StatusCard.completed (Some "Concluído")
                 PageSim.newTasks in
  PrimFloat.eqb (StatusCard.barWidth tasks) (StatusCard.progress tasks) = true /\
  PrimFloat.leb 0%float (StatusCard.barWidth tasks) = true /\
  PrimFloat.leb (StatusCard.barWidth tasks) 100%float = true.
Proof.
  intros tasks. apply (bar_width_in_range tasks). unfold tasks. simpl. lia.
Defined.

(** X5: the "Sentença Gerada!" section of the timer-driven page is
    rendered exactly when the card reads n/n with n > 0; for a list of
    fewer than 200 tasks, exactly when the list is not empty and the
    card shows 100%. *)
Theorem results_section_and_card (s : PageSim.State) :
  (PageSim.resultsSection s = true <->
     (0 < StatusCard.totalTasks (PageSim.tasks s))%nat /\
     StatusCard.completedTasks (PageSim.tasks s)
     = StatusCard.totalTasks (PageSim.tasks s)) /\
  ((StatusCard.totalTasks (PageSim.tasks s) < 200)%nat ->
   (PageSim.resultsSection s = true <->
      PageSim.tasks s <> [] /\
      StatusCard.percent (PageSim.tasks s) = Some 100%Z)).
Proof.
  assert (Hfirst : PageSim.resultsSection s = true <->
            (0 < StatusCard.totalTasks (PageSim.tasks s))%nat /\
            StatusCard.completedTasks (PageSim.tasks s)
            = StatusCard.totalTasks (PageSim.tasks s)).
  { unfold PageSim.resultsSection.
    rewrite andb_true_iff, Nat.ltb_lt, everyCompleted_counts. reflexivity. }
  split; [exact Hfirst|].
  intros Hlt. rewrite Hfirst, <- everyCompleted_counts.
  destruct (PageSim.tasks s) as [|t ts] eqn:E.
  - simpl. split; [intros [H _]; lia|intros [H _]; congruence].
  - assert (Hlen : (0 < StatusCard.totalTasks (t :: ts) < 200)%nat)
      by (split; [simpl; lia|exact Hlt]).
    destruct (proj1 percent_extremes (t :: ts) Hlen) as [_ H100].
    rewrite H100. split; intros [_ H]; (split; [|exact H]).
    + discriminate.
    + simpl. lia.
Qed.

Lemma results_section_and_card_witness :
  let s := {| PageSim.uploadedFiles := []; PageSim.isProcessing := false;
              PageSim.tasks := [Example.doneTask; Example.doneTask];
              PageSim.currentStep := "" |} in
  PageSim.resultsSection s = true <->
    PageSim.tasks s <> [] /\ StatusCard.percent (PageSim.tasks s) = Some 100%Z.
Proof.
  intros s. apply (proj2 (results_section_and_card s)). simpl. lia.
Defined.

(* ===================================================================== *)
(** * Further properties: the upload zones *)
(* ===================================================================== *)

Section Extensions.

Lemma lower_dot (c : ascii) : (Js.lower c =? ".")%char = (c =? ".")%char.
Proof. destruct c as [[] [] [] [] [] [] [] []]; reflexivity. Qed.

Lemma lower_lower (c : ascii) : Js.lower (Js.lower c) = Js.lower c.
Proof. destruct c as [[] [] [] [] [] [] [] []]; reflexivity. Qed.

Lemma toLowerCase_idempotent (s : string) :
  Js.toLowerCase (Js.toLowerCase s) = Js.toLowerCase s.
Proof.
  induction s as [|c s IH]; simpl; [reflexivity|].
  rewrite lower_lower, IH. reflexivity.
Qed.

Lemma has_dot_lower (s : string) : Js.has_dot (Js.toLowerCase s) = Js.has_dot s.
Proof.
  induction s as [|c s IH]; simpl; [reflexivity|].
  rewrite lower_dot, IH. reflexivity.
Qed.

Lemma split_dot_pop_lower (s : string) :
  Js.split_dot_pop (Js.toLowerCase s) = Js.toLowerCase (Js.split_dot_pop s).
Proof.
  induction s as [|c s IH]; simpl; [reflexivity|].
  rewrite lower_dot, has_dot_lower, IH.
  destruct (c =? ".")%char; [reflexivity|].
  destruct (Js.has_dot s); reflexivity.
Qed.

Lemma split_dot_pop_plain (s : string) :
  Js.has_dot s = false -> Js.split_dot_pop s = s.
Proof.
  destruct s as [|c s]; simpl; [reflexivity|].
  destruct (c =? ".")%char; simpl; [discriminate|].
  intros ->. reflexivity.
Qed.

Lemma has_dot_append (a b : string) :
  Js.has_dot (a +++ b) = Js.has_dot a || Js.has_dot b.
Proof.
  induction a as [|c a IH]; simpl; [reflexivity|].
  rewrite IH. apply orb_assoc.
Qed.

(** Only what follows the last dot is the extension. *)
Lemma split_dot_pop_append (base ext : string) :
  Js.has_dot ext = false ->
  Js.split_dot_pop (base +++ "." +++ ext) = ext.
Proof.
  intros Hext. change ("." +++ ext) with (String "."%char ext).
  induction base as [|c base IH]; simpl.
  - apply split_dot_pop_plain. exact Hext.
  - rewrite IH, has_dot_append. simpl. rewrite orb_true_r.
    destruct (c =? ".")%char; reflexivity.
Qed.

Lemma includes_cases (l : list string) (x : string) :
  Js.includes l x = true <-> In x l.
Proof.
  unfold Js.includes. rewrite existsb_exists. split.
  - intros (y & Hin & Heq). apply String.eqb_eq in Heq. subst. exact Hin.
  - intros Hin. exists x. split; [exact Hin|apply String.eqb_refl].
Qed.

End Extensions.

(** X6: no file name is accepted by both zones: the extensions of
    documents and of recordings are disjoint, so a file accepted as a
    document is refused as a recording and conversely. *)
Theorem validateFile_exclusive (f : UploadZone.File) :
  UploadZone.validateFile UploadZone.processo f = true ->
  UploadZone.validateFile UploadZone.audiencia f = false.
Proof.
  unfold UploadZone.validateFile.
  destruct (negb (Js.truthy _)); [discriminate|].
  intros H. apply includes_cases in H.
  destruct (Js.includes _ _) eqn:E; [|reflexivity].
  apply includes_cases in E. simpl in H, E.
  repeat (destruct H as [H|H]; [rewrite <- H in E; simpl in E;
                                intuition discriminate|]).
  contradiction.
Qed.

Lemma validateFile_exclusive_witness :
  UploadZone.validateFile UploadZone.audiencia Example.firstDocument = false.
Proof. apply validateFile_exclusive. reflexivity. Defined.

(** X7: [validateFile] looks at what follows the last dot of the name
    and at nothing else, without regard to case.  A name [base.ext]
    (with [ext] free of dots) is judged as the bare name [ext] is, so a
    name without any dot is taken for its own extension; upper and
    lower case letters are the same; and a name ending in a dot, or
    the empty name, is refused in both zones. *)
Theorem validateFile_extension (ty : UploadZone.FileType) (size : nat) :
  (forall base ext,
     Js.has_dot ext = false ->
     UploadZone.validateFile ty (UploadZone.mkFile (base +++ "." +++ ext) size)
     = UploadZone.validateFile ty (UploadZone.mkFile ext size)) /\
  (forall name,
     UploadZone.validateFile ty (UploadZone.mkFile (Js.toLowerCase name) size)
     = UploadZone.validateFile ty (UploadZone.mkFile name size)) /\
  (forall base,
     UploadZone.validateFile ty (UploadZone.mkFile (base +++ ".") size) = false) /\
  UploadZone.validateFile ty (UploadZone.mkFile "" size) = false.
Proof.
  split; [|split; [|split]].
  - intros base ext Hext. unfold UploadZone.validateFile. cbn [UploadZone.name].
    rewrite (split_dot_pop_append base ext Hext),
            (split_dot_pop_plain ext Hext).
    reflexivity.
  - intros name. unfold UploadZone.validateFile. cbn [UploadZone.name].
    rewrite split_dot_pop_lower, toLowerCase_idempotent. reflexivity.
  - intros base. unfold UploadZone.validateFile. cbn [UploadZone.name].
    change (base +++ ".") with (base +++ "." +++ "").
    rewrite (split_dot_pop_append base "" eq_refl). reflexivity.
  - reflexivity.
Qed.

(** "processo.v2.docx" is judged as "docx" is. *)
Lemma validateFile_extension_witness :
  UploadZone.validateFile UploadZone.processo
    (UploadZone.mkFile "processo.v2.docx" 1200)
  = UploadZone.validateFile UploadZone.processo (UploadZone.mkFile "docx" 1200).
Proof.
  exact (proj1 (validateFile_extension UploadZone.processo 1200)
           "processo.v2" "docx" eq_refl).
Defined.

Section ZoneAndPage.

Import UploadZone.

Lemma run_consistent (actions : list Action) : Spec.consistent (run actions).
Proof. apply consistent_fold, consistent_initial. Qed.

End ZoneAndPage.

(** X8: removing undoes an upload.  In every state the component can
    reach, "Remover" of a role empties the cell of that role, leaves
    no file of that role in the list handed to the page, leaves the
    other role alone, and pressed again changes nothing; and when the
    cell of a role is empty, an accepted upload of that role followed
    by its removal gives back the very same state. *)
Theorem remove_undoes_upload
    (actions : list UploadZone.Action) (ty : UploadZone.FileType) :
  (UploadZone.slot ty (UploadZone.act (UploadZone.run actions)
                         (UploadZone.Remove ty)) = None /\
   UploadZone.ofRole ty
     (UploadZone.uploadedFiles
        (UploadZone.act (UploadZone.run actions) (UploadZone.Remove ty))) = [] /\
   (forall ty', ty' <> ty ->
      UploadZone.slot ty' (UploadZone.act (UploadZone.run actions)
                             (UploadZone.Remove ty))
      = UploadZone.slot ty' (UploadZone.run actions) /\
      UploadZone.ofRole ty'
        (UploadZone.uploadedFiles
           (UploadZone.act (UploadZone.run actions) (UploadZone.Remove ty)))
      = UploadZone.ofRole ty' (UploadZone.uploadedFiles (UploadZone.run actions))) /\
   UploadZone.act (UploadZone.act (UploadZone.run actions) (UploadZone.Remove ty))
     (UploadZone.Remove ty)
   = UploadZone.act (UploadZone.run actions) (UploadZone.Remove ty)) /\
  (forall f others rnd,
     UploadZone.validateFile ty f = true ->
     UploadZone.slot ty (UploadZone.run actions) = None ->
     UploadZone.act
       (UploadZone.act (UploadZone.run actions)
          (UploadZone.Drop ty (f :: others) rnd))
       (UploadZone.Remove ty)
     = UploadZone.run actions).
Proof.
  pose proof (run_consistent actions) as Hc.
  assert (Hc' : Spec.consistent
                  (UploadZone.act (UploadZone.run actions) (UploadZone.Remove ty)))
    by (apply consistent_act; exact Hc).
  assert (Hslot : UploadZone.slot ty
                    (UploadZone.act (UploadZone.run actions)
                       (UploadZone.Remove ty)) = None)
    by (destruct ty; reflexivity).
  split; [split; [exact Hslot|split; [|split]]|].
  - rewrite (ofRole_slot _ ty Hc'), Hslot. reflexivity.
  - intros ty' Hne.
    assert (Hother : UploadZone.slot ty'
                       (UploadZone.act (UploadZone.run actions)
                          (UploadZone.Remove ty))
                     = UploadZone.slot ty' (UploadZone.run actions))
      by (destruct ty, ty'; try reflexivity; contradiction).
    split; [exact Hother|].
    rewrite (ofRole_slot _ ty' Hc'), (ofRole_slot _ ty' Hc), Hother.
    reflexivity.
  - destruct ty; reflexivity.
  - intros f others rnd Hvalid Hempty.
    simpl. rewrite Hvalid.
    destruct Hc as [Hlist _].
    destruct (UploadZone.run actions) as [p a l].
    simpl in Hlist, Hempty. subst l.
    destruct ty; simpl in *; subst; simpl; try rewrite app_nil_r; reflexivity.
Qed.

(** With a document and no recording retained, a recording is
    uploaded and removed again. *)
Lemma remove_undoes_upload_witness :
  let st := UploadZone.run
              [UploadZone.Drop UploadZone.processo [Example.firstDocument] "id1"] in
  UploadZone.act
    (UploadZone.act st
       (UploadZone.Drop UploadZone.audiencia [Example.recording] "id2"))
    (UploadZone.Remove UploadZone.audiencia)
  = st.
Proof.
  intros st.
  exact (proj2 (remove_undoes_upload
                  [UploadZone.Drop UploadZone.processo
                     [Example.firstDocument] "id1"]
                  UploadZone.audiencia)
           Example.recording [] "id2" eq_refl eq_refl).
Defined.

(** X9: the page and the upload zones agree on what is retained.  In
    every state the zones can reach, the flags the page computes from
    the list it was handed say exactly which cells are filled:
    [hasProcesso] and [hasAudiencia] are the two cells, [hasFiles] is
    the condition of the status panel of the zones, the list has at
    most two files, and the button is enabled (when the page is not
    processing) exactly when some file is retained. *)
Theorem page_flags_match_zones (actions : list UploadZone.Action) :
  Views.hasProcesso (UploadZone.uploadedFiles (UploadZone.run actions))
  = Views.present (UploadZone.processoFile (UploadZone.run actions)) /\
  Views.hasAudiencia (UploadZone.uploadedFiles (UploadZone.run actions))
  = Views.present (UploadZone.audienciaFile (UploadZone.run actions)) /\
  Views.hasFiles (UploadZone.uploadedFiles (UploadZone.run actions))
  = Views.statusPanel (UploadZone.run actions) /\
  (List.length (UploadZone.uploadedFiles (UploadZone.run actions)) <= 2)%nat /\
  Views.disabled (UploadZone.uploadedFiles (UploadZone.run actions)) false
  = negb (Views.statusPanel (UploadZone.run actions)).
Proof.
  destruct (run_consistent actions) as [Hlist Hty].
  pose proof (Hty UploadZone.processo) as Hp.
  pose proof (Hty UploadZone.audiencia) as Ha.
  unfold Views.disabled, Views.hasFiles, Views.hasProcesso, Views.hasAudiencia,
    Views.statusPanel.
  destruct (UploadZone.run actions) as [[p|] [a|] l]; simpl in *; subst l;
    simpl;
    try rewrite (Hp p eq_refl); try rewrite (Ha a eq_refl); simpl;
    repeat split; try reflexivity; lia.
Qed.

(** X10: the request of [uploadFiles] carries at most one file per
    field.  For every list the upload zones can hand to the page, the
    form data is the document (if any) under "processo" followed by
    the recording (if any) under "audiencia". *)
Theorem formData_one_per_field (actions : list UploadZone.Action) :
  PageApiRun.formData (UploadZone.uploadedFiles (UploadZone.run actions))
  = match UploadZone.processoFile (UploadZone.run actions) with
    | Some u => [("processo", UploadZone.file u)]
    | None => []
    end
    ++ match UploadZone.audienciaFile (UploadZone.run actions) with
       | Some u => [("audiencia", UploadZone.file u)]
       | None => []
       end.
Proof.
  destruct (run_consistent actions) as [Hlist Hty].
  pose proof (Hty UploadZone.processo) as Hp.
  pose proof (Hty UploadZone.audiencia) as Ha.
  unfold PageApiRun.formData.
  destruct (UploadZone.run actions) as [[p|] [a|] l]; simpl in *; subst l;
    simpl;
    try rewrite (Hp p eq_refl); try rewrite (Ha a eq_refl); reflexivity.
Qed.

(* ===================================================================== *)
(** * Further properties: the loop of processWithAPI *)
(* ===================================================================== *)

Section LoopFrame.

Import Async StatusCard.

Variable cid : string.

Lemma Forall2_map_left {A B C} (f : A -> B) (R : B -> C -> Prop)
    (l : list A) (l' : list C) :
  Forall2 R (map f l) l' -> Forall2 (fun a c => R (f a) c) l l'.
Proof.
  revert l'. induction l as [|a l IH]; intros l' H; inversion H; subst;
    constructor; auto.
Qed.

Lemma Forall2_in_right {A B} (R : A -> B -> Prop) (l : list A) (l' : list B)
    (b : B) :
  Forall2 R l l' -> In b l' -> exists a, In a l /\ R a b.
Proof.
  induction 1 as [|x y l l' Hxy _ IH]; intros Hin; [contradiction|].
  destruct Hin as [<-|Hin].
  - exists x. simpl. auto.
  - destruct (IH Hin) as (a & Ha & HR). exists a. simpl. auto.
Qed.

Lemma api_loop_kept (steps : list PageApi.Step.t) :
  forall w : World PageApi.State,
    More.kept cid steps w (snd (fst (PageApi.processLoop steps cid w)))
      (snd (PageApi.processLoop steps cid w)).
Proof.
  unfold PageApi.processLoop, More.kept.
  induction steps as [|s steps IH]; intros w.
  - simpl. do 4 (split; [reflexivity|]). split.
    + exists 0%nat. split; [simpl; lia|split; [lia|reflexivity]].
    + rewrite <- (map_id (PageApi.tasks (state w))) at 2.
      apply Forall2_map_of. auto.
  - remember (forOf (s :: steps) (PageApi.iteration cid) w) as run eqn:Hrun.
    rewrite forOf_cons in Hrun. unfold bind in Hrun.
    rewrite api_iteration in Hrun.
    destruct (Spec.attempt s _) as [e|res].
    + subst run.
      cbn [fst snd state calls network PageApi.uploadedFiles
           PageApi.isProcessing PageApi.caseId PageApi.tasks
           Spec.apiFailed Spec.apiSettled Spec.apiStarted Spec.apiLabelled].
      do 4 (split; [reflexivity|]). split.
      * exists 1%nat. split; [simpl; lia|split; [lia|reflexivity]].
      * rewrite !update_map, map_map. apply Forall2_map_of. intros t _.
        rewrite !updated_id, !updated_name.
        split; [reflexivity|]. split; [reflexivity|]. intros Hnot.
        assert (Hne : id t <> PageApi.Step.id s)
          by (intros E; apply Hnot; simpl; auto).
        rewrite !updated_miss by (rewrite ?updated_id; exact Hne).
        reflexivity.
    + match type of Hrun with
      | context [forOf steps _ ?w2] =>
          specialize (IH w2); destruct (forOf steps _ w2) as [[r w3] t3]
      end.
      subst run.
      cbn [fst snd state calls network PageApi.uploadedFiles
           PageApi.isProcessing PageApi.caseId PageApi.tasks
           Spec.apiCompleted Spec.apiSettled Spec.apiStarted
           Spec.apiLabelled] in *.
      destruct IH as (H1 & H2 & H3 & H4 & (k & Hk & Hcalls & Hinv) & Htasks).
      do 4 (split; [assumption|]). split.
      * exists (S k).
        split; [simpl; lia|split; [lia|]].
        rewrite invoked_app. simpl. rewrite Hinv. reflexivity.
      * rewrite !update_map, map_map in Htasks.
        apply Forall2_map_left in Htasks.
        eapply Forall2_impl; [|exact Htasks].
        intros t t' (Hid & Hname & Hsame).
        rewrite !updated_id in Hid. rewrite !updated_name in Hname.
        split; [assumption|]. split; [assumption|].
        intros Hnot. simpl in Hnot.
        assert (Hne : id t <> PageApi.Step.id s)
          by (intros E; apply Hnot; left; symmetry; exact E).
        rewrite Hsame
          by (rewrite !updated_id; intros Hx; apply Hnot; right; exact Hx).
        rewrite !updated_miss by (rewrite ?updated_id; exact Hne).
        reflexivity.
Qed.

(** Started where the tasks its steps address are pending, the loop
    leaves none of them running; if it returns, they are all
    completed. *)
Lemma api_loop_settles (steps : list PageApi.Step.t) :
  forall w : World PageApi.State,
    NoDup (map PageApi.Step.id steps) ->
    (forall t, In t (PageApi.tasks (state w)) ->
               In (id t) (map PageApi.Step.id steps) -> status t = pending) ->
    forall t',
      In t' (PageApi.tasks
               (state (snd (fst (PageApi.processLoop steps cid w))))) ->
      In (id t') (map PageApi.Step.id steps) ->
      status t' <> running /\
      (fst (fst (PageApi.processLoop steps cid w)) = Returned tt ->
       status t' = completed).
Proof.
  induction steps as [|s steps IH]; intros w Hnd Hinv t' Hin Hid;
    [contradiction|].
  simpl in Hnd. apply NoDup_cons_iff in Hnd. destruct Hnd as [Hnotin Hnd].
  pose proof (api_loop_kept steps) as Hkept.
  unfold PageApi.processLoop in *.
  remember (forOf (s :: steps) (PageApi.iteration cid) w) as run eqn:Hrun.
  rewrite forOf_cons in Hrun. unfold bind in Hrun.
  rewrite api_iteration in Hrun.
  destruct (Spec.attempt s _) as [e|res].
  - subst run.
    cbn [fst snd state PageApi.tasks Spec.apiFailed Spec.apiSettled
         Spec.apiStarted Spec.apiLabelled] in *.
    split; [|discriminate].
    destruct (String.eqb_spec (id t') (PageApi.Step.id s)) as [Heq|Hne].
    + destruct (update_in_hit _ _ _ _ _ Hin Heq) as [-> _]. discriminate.
    + rewrite (others_pending (PageApi.Step.id s) error _ _ _
                 (map PageApi.Step.id steps) Hnotin Hinv t' Hin);
        [discriminate|].
      simpl in Hid. destruct Hid as [Hid|Hid]; [congruence|exact Hid].
  - match type of Hrun with
    | context [forOf steps _ ?w2] =>
        specialize (IH w2 Hnd); specialize (Hkept w2);
        destruct (forOf steps _ w2) as [[r w3] t3]
    end.
    subst run.
    cbn [fst snd state PageApi.tasks Spec.apiCompleted Spec.apiSettled
         Spec.apiStarted Spec.apiLabelled] in *.
    assert (Hinv2 : forall t,
              In t (TaskList.update (PageApi.Step.id s) completed
                      (Some (Js.or_else (Async.message res) "Concluído"))
                      (TaskList.update (PageApi.Step.id s) running
                         (Some (PageApi.Step.name s))
                         (PageApi.tasks (state w)))) ->
              In (id t) (map PageApi.Step.id steps) -> status t = pending)
      by (apply others_pending; assumption).
    destruct (in_dec string_dec (id t') (map PageApi.Step.id steps))
      as [Hrest|Hrest].
    + exact (IH Hinv2 t' Hin Hrest).
    + simpl in Hid. destruct Hid as [Hid|Hid]; [|contradiction].
      destruct Hkept as (_ & _ & _ & _ & _ & Htasks).
      destruct (Forall2_in_right _ _ _ t' Htasks Hin)
        as (t2 & Hin2 & Hid2 & _ & Hsame).
      rewrite Hid2 in Hrest. rewrite (Hsame Hrest).
      assert (Hid3 : id t2 = PageApi.Step.id s) by congruence.
      destruct (update_in_hit _ _ _ _ _ Hin2 Hid3) as [-> _].
      split; [discriminate|reflexivity].
Qed.

End LoopFrame.

(** X11: the run in which every step succeeds.  Over steps with
    distinct ids all of whose requests are answered with success, the
    loop returns, having sent exactly one request per step, in the
    order of the steps; every task a step addresses is completed with
    the message of the result of that step (or "Concluído"), and every
    other task is what it was.  Whatever label is set after the loop,
    as [processWithAPI] does, is then the current step, over the same
    tasks. *)
Theorem run_succeeds
    (steps : list PageApi.Step.t) (results : list Async.Result)
    (cid : string) (w : Async.World PageApi.State) :
  NoDup (map PageApi.Step.id steps) ->
  Spec.attempts steps (Async.network w) (Async.calls w) = map inr results ->
  exists w' tr,
    PageApi.processLoop steps cid w = (Async.Returned tt, w', tr) /\
    Async.invoked tr = Spec.requests steps cid /\
    Async.calls w' = (Async.calls w + List.length steps)%nat /\
    Forall2
      (fun t t' =>
         StatusCard.id t' = StatusCard.id t /\
         StatusCard.name t' = StatusCard.name t /\
         (In (StatusCard.id t) (map PageApi.Step.id steps) ->
            StatusCard.status t' = StatusCard.completed) /\
         (forall j step res,
            nth_error steps j = Some step -> nth_error results j = Some res ->
            StatusCard.id t = PageApi.Step.id step ->
            StatusCard.message t' = Some (Spec.completedMessage res)) /\
         (~ In (StatusCard.id t) (map PageApi.Step.id steps) -> t' = t))
      (PageApi.tasks (Async.state w)) (PageApi.tasks (Async.state w')) /\
    (forall label,
       exists w'',
         Async.bind (PageApi.processLoop steps cid)
           (fun _ => PageApi.setCurrentStep label) w
         = (Async.Returned tt, w'', tr ++ [Async.Commit (Async.state w'')]) /\
         PageApi.currentStep (Async.state w'') = label /\
         PageApi.tasks (Async.state w'') = PageApi.tasks (Async.state w')).
Proof.
  intros Hnd Hok.
  pose proof (attempts_length _ _ _ _ Hok) as Hlen.
  pose proof (api_loop_ok cid steps results w Hok) as Hrun.
  eexists. eexists. split; [exact Hrun|].
  split; [apply apiTrace_invoked; exact Hlen|].
  split; [reflexivity|]. split.
  - cbn [Async.state]. rewrite apiAfter_tasks.
    apply Forall2_map_of. intros t _.
    rewrite settle_id, settle_name.
    split; [reflexivity|]. split; [reflexivity|].
    split; [|split].
    + intros Hin. apply settle_hit.
      rewrite (combine_ids steps results Hlen). exact Hin.
    + intros j step res Hj Hr Hid.
      apply (settle_message (combine steps results)) with (step := step).
      * rewrite (combine_ids steps results Hlen). exact Hnd.
      * eapply nth_error_combine_in; eauto.
      * exact Hid.
    + intros Hnot. apply settle_miss.
      rewrite (combine_ids steps results Hlen). exact Hnot.
  - intros label.
    exists (snd (fst (Async.bind (PageApi.processLoop steps cid)
                        (fun _ => PageApi.setCurrentStep label) w))).
    rewrite (bind_returned _ _ w _ tt _ Hrun).
    split; [reflexivity|]. split; reflexivity.
Qed.

(** The three steps of the page, every request answered with "ok". *)
Lemma run_succeeds_witness :
  exists w' tr,
    PageApi.processLoop PageApi.steps "abc"
      (Example.apiStart (Example.downFrom 3))
    = (Async.Returned tt, w', tr) /\
    Async.invoked tr = Spec.requests PageApi.steps "abc" /\
    Async.calls w' = 3%nat.
Proof.
  assert (Hnd : NoDup (map PageApi.Step.id PageApi.steps))
    by (repeat constructor; simpl; intuition discriminate).
  destruct (run_succeeds PageApi.steps
              [ {| Async.message := Some "ok" |};
                {| Async.message := Some "ok" |};
                {| Async.message := Some "ok" |} ]
              "abc" (Example.apiStart (Example.downFrom 3)) Hnd eq_refl)
    as (w' & tr & Hrun & Hinv & Hcalls & _).
  exists w', tr. split; [exact Hrun|]. split; [exact Hinv|exact Hcalls].
Defined.

(** X12: what the loop of [processWithAPI] never does, whatever the
    network answers and whether it returns or throws: it does not
    touch the retained files, the processing flag or the case id; it
    sends the requests of its steps in their order, one at most per
    step, stopping at some step; it keeps the ids and the names of the
    tasks, and every task no step addresses is exactly what it was
    (the task "0" of the upload, for the steps of the page). *)
Theorem loop_keeps
    (steps : list PageApi.Step.t) (cid : string)
    (w : Async.World PageApi.State) :
  More.kept cid steps w
    (snd (fst (PageApi.processLoop steps cid w)))
    (snd (PageApi.processLoop steps cid w)).
Proof. apply api_loop_kept. Qed.

(** X13: the loop of [processWithAPI] leaves no task running.  Over
    steps with distinct ids, started where the tasks they address are
    pending, whatever the network answers: at the end every task a
    step addresses is pending, completed or in error, never running;
    and if the loop returned, every such task is completed. *)
Theorem loop_leaves_none_running
    (steps : list PageApi.Step.t) (cid : string)
    (w : Async.World PageApi.State) :
  NoDup (map PageApi.Step.id steps) ->
  (forall t, In t (PageApi.tasks (Async.state w)) ->
             In (StatusCard.id t) (map PageApi.Step.id steps) ->
             StatusCard.status t = StatusCard.pending) ->
  forall t',
    In t' (PageApi.tasks
             (Async.state (snd (fst (PageApi.processLoop steps cid w))))) ->
    In (StatusCard.id t') (map PageApi.Step.id steps) ->
    StatusCard.status t' <> StatusCard.running /\
    (fst (fst (PageApi.processLoop steps cid w)) = Async.Returned tt ->
     StatusCard.status t' = StatusCard.completed).
Proof. apply api_loop_settles. Qed.

(** The run of the page whose second request is rejected: none of
    its tasks is running at the end. *)
Lemma loop_leaves_none_running_witness :
  Forall
    (fun t' =>
       In (StatusCard.id t') (map PageApi.Step.id PageApi.steps) ->
       StatusCard.status t' <> StatusCard.running)
    (PageApi.tasks
       (Async.state
          (snd (fst (PageApi.processLoop PageApi.steps "abc"
                       (Example.apiStart (Example.downFrom 1))))))).
Proof.
  apply Forall_forall. intros t' Hin Hid.
  refine (proj1 (loop_leaves_none_running PageApi.steps "abc"
                   (Example.apiStart (Example.downFrom 1)) _ _ t' Hin Hid)).
  - repeat constructor; simpl; intuition discriminate.
  - intros t Ht _. simpl in Ht.
    repeat (destruct Ht as [<-|Ht]; [reflexivity|]). contradiction.
Defined.

(* ===================================================================== *)
(** * Further properties: the runs of the two pages *)
(* ===================================================================== *)

(** X14: a run of the timer-driven page always succeeds.  From any
    state of the page, [handleProcess] returns without sending any
    request, after the five timers of the steps in their order; at the
    end the page is no longer processing, the five tasks are all
    completed with the message "Concluído", the label is the one of
    success, the card shows 5/5 and 100%, the results section is
    rendered, and the retained files are untouched. *)
Theorem simulated_run_always_succeeds (w : Async.World PageSim.State) :
  fst (fst (PageSim.handleProcess w)) = Async.Returned tt /\
  Async.calls (snd (fst (PageSim.handleProcess w))) = Async.calls w /\
  Async.invoked (snd (PageSim.handleProcess w))
  = [ Async.Timeout 2000; Async.Timeout 3000; Async.Timeout 2500;
      Async.Timeout 2000; Async.Timeout 3000 ] /\
  PageSim.isProcessing (Async.state (snd (fst (PageSim.handleProcess w))))
  = false /\
  PageSim.tasks (Async.state (snd (fst (PageSim.handleProcess w))))
  = map (fun t => {| StatusCard.id := StatusCard.id t;
                     StatusCard.name := StatusCard.name t;
                     StatusCard.status := StatusCard.completed;
                     StatusCard.message := Some "Concluído" |})
        PageSim.newTasks /\
  PageSim.currentStep (Async.state (snd (fst (PageSim.handleProcess w))))
  = "Sentença gerada com sucesso! 🎉" /\
  StatusCard.percent
    (PageSim.tasks (Async.state (snd (fst (PageSim.handleProcess w)))))
  = Some 100%Z /\
  PageSim.resultsSection (Async.state (snd (fst (PageSim.handleProcess w))))
  = true /\
  PageSim.uploadedFiles (Async.state (snd (fst (PageSim.handleProcess w))))
  = PageSim.uploadedFiles (Async.state w).
Proof.
  repeat split; vm_compute; reflexivity.
Qed.

Section Monitor.

Import Async StatusCard.


End Monitor.


Section HandleProcessApi.

Import Async StatusCard.

Variable case_id : Result -> option string.

Lemma uploadFiles_run (w : World PageApi.State) :
  PageApiRun.uploadFiles case_id w
  = match PageApi.uploadedFiles (state w) with
    | [] => (Returned None, w, [])
    | _ :: _ =>
        match More.uploadAttempt case_id (network w (calls w)) with
        | inl e =>
            (Threw e,
             {| state := state w; calls := S (calls w); network := network w |},
             [Await (Fetch (PageApi.API_URL +++ "/upload-caso")) (state w)])
        | inr c =>
            (Returned c,
             {| state := state w; calls := S (calls w); network := network w |},
             [Await (Fetch (PageApi.API_URL +++ "/upload-caso")) (state w)])
        end
    end.
Proof.
  unfold PageApiRun.uploadFiles, PageApiRun.getState, bind at 1.
  destruct (PageApi.uploadedFiles (state w)) as [|f files].
  - cbn [List.length Nat.eqb]. unfold ret. destruct w; reflexivity.
  - cbn [List.length Nat.eqb].
    unfold try_catch, bind, fetch, More.uploadAttempt, throw, ret, await.
    destruct (network w (calls w)) as [e|[okr str stt txt jsn]].
    + reflexivity.
    + cbn [ok text json statusText negb].
    destruct okr.
    * destruct jsn as [e|res]; reflexivity.
    * destruct txt as [e|body]; reflexivity.
Qed.

Lemma upload_then (w : World PageApi.State) :
  bind (PageApiRun.uploadFiles case_id)
    (fun uploadedCaseId =>
       match uploadedCaseId with
       | Some c =>
           if Js.truthy c
           then PageApi.setCaseId c ;;
                PageApi.updateTaskStatus "0" completed
                  (Some ("Arquivos enviados! Case ID: " +++ c)) ;;
                PageApi.monitorarProgresso c
           else throw (Js.newError "Falha no upload dos arquivos")
       | None => throw (Js.newError "Falha no upload dos arquivos")
       end) w
  = bind (More.sendUpload (More.uploadSent w))
      (fun _ => More.afterUpload (More.uploadResult case_id w)) w.
Proof.
  unfold bind at 1 4. rewrite uploadFiles_run.
  unfold More.sendUpload, More.uploadSent, More.uploadResult.
  destruct (PageApi.uploadedFiles (state w)) as [|f files];
    cbn [List.length Nat.eqb negb].
  - unfold More.afterUpload, throw. destruct w; reflexivity.
  - destruct (More.uploadAttempt case_id (network w (calls w)))
      as [e|[c|]].
    + reflexivity.
    + destruct (Js.truthy c).
      * unfold More.afterUpload. reflexivity.
      * reflexivity.
    + reflexivity.
Qed.

Lemma handleProcess_with (w : World PageApi.State) :
  PageApiRun.handleProcess case_id w
  = More.handleProcessWith (More.uploadSent w) (More.uploadResult case_id w) w.
Proof.
  unfold PageApiRun.handleProcess, More.handleProcessWith.
  rewrite !(bind_returned _ _ w _ tt _ eq_refl).
  match goal with
  | |- context [bind PageApi.initializeTasks _ ?wA] =>
      rewrite !(bind_returned _ _ wA _ tt _ eq_refl)
  end.
  unfold try_finally, try_catch.
  match goal with
  | |- context [bind (PageApi.setCurrentStep ?l) _ ?wB] =>
      rewrite !(bind_returned _ _ wB _ tt _ eq_refl)
  end.
  match goal with
  | |- context [bind (PageApi.updateTaskStatus ?a ?b ?c) _ ?wC] =>
      rewrite !(bind_returned _ _ wC _ tt _ eq_refl)
  end.
  match goal with
  | |- context [bind (PageApiRun.uploadFiles case_id) ?k ?wD] =>
      rewrite (upload_then wD);
      change (More.uploadSent wD) with (More.uploadSent w);
      change (More.uploadResult case_id wD) with (More.uploadResult case_id w)
  end.
  reflexivity.
Qed.
End HandleProcessApi.

(** X16: [handleProcess] of the page that calls the backend never lets
    an error escape and never leaves the page processing.  Whatever
    the retained files and whatever the network answers, it returns
    with the processing flag off and the retained files untouched; it
    sends at most one request, that of the upload, and only when some
    file is retained: never a request for a step; and the task list
    is the four tasks of [initializeTasks], under new statuses. *)
Theorem handleProcess_is_safe
    (case_id : Async.Result -> option string)
    (w : Async.World PageApi.State) :
  fst (fst (PageApiRun.handleProcess case_id w)) = Async.Returned tt /\
  PageApi.isProcessing
    (Async.state (snd (fst (PageApiRun.handleProcess case_id w)))) = false /\
  PageApi.uploadedFiles
    (Async.state (snd (fst (PageApiRun.handleProcess case_id w))))
  = PageApi.uploadedFiles (Async.state w) /\
  Async.calls (snd (fst (PageApiRun.handleProcess case_id w)))
  = (match PageApi.uploadedFiles (Async.state w) with
     | [] => Async.calls w
     | _ :: _ => S (Async.calls w)
     end) /\
  (exists timers,
     Async.invoked (snd (PageApiRun.handleProcess case_id w))
     = match PageApi.uploadedFiles (Async.state w) with
       | [] => []
       | _ :: _ => [Async.Fetch "http://localhost:8000/upload-caso"]
       end ++ map Async.Timeout timers) /\
  map StatusCard.id
    (PageApi.tasks (Async.state (snd (fst (PageApiRun.handleProcess case_id w)))))
  = ["0"; "1"; "2"; "3"] /\
  map StatusCard.name
    (PageApi.tasks (Async.state (snd (fst (PageApiRun.handleProcess case_id w)))))
  = map StatusCard.name PageApi.newTasks.
Proof.
  rewrite handleProcess_with.
  assert (Hfiles0 :
            PageApi.uploadedFiles
              (Async.state
                 (snd (fst (More.handleProcessWith (More.uploadSent w)
                              (More.uploadResult case_id w) w))))
            = PageApi.uploadedFiles (Async.state w))
    by (destruct (More.uploadSent w), (More.uploadResult case_id w);
        vm_compute; reflexivity).
  assert (Hsent : More.uploadSent w
                  = match PageApi.uploadedFiles (Async.state w) with
                    | [] => false
                    | _ :: _ => true
                    end).
  { unfold More.uploadSent.
    destruct (PageApi.uploadedFiles (Async.state w)); reflexivity. }
  rewrite Hsent in *.
  destruct (PageApi.uploadedFiles (Async.state w)) as [|f files] eqn:Hfiles;
    destruct (More.uploadResult case_id w) as [e|c];
    (split; [reflexivity|]); (split; [reflexivity|]);
    (split; [exact Hfiles0|]);
    (split; [reflexivity|]);
    (split; [|split; vm_compute; reflexivity]).
  - exists []. reflexivity.
  - exists [60000%N; 60000%N; 30000%N]. reflexivity.
  - exists []. reflexivity.
  - exists [60000%N; 60000%N; 30000%N]. reflexivity.
Qed.

(** X17: a run of that page ends in one of two ways.  Either the
    upload gave a case id: that id is stored, the four tasks are all
    completed, the results section is rendered and the label announces
    the end of the pipeline.  Or it did not: then the failure is
    recorded in the label only ("Erro: " and the message of the
    error), the task "0" of the upload is left running with the three
    others pending, so no task is in error, the case id is not
    changed and the card shows 0%. *)
Theorem handleProcess_two_endings
    (case_id : Async.Result -> option string)
    (w : Async.World PageApi.State) :
  (exists c,
     Js.truthy c = true /\
     PageApi.caseId
       (Async.state (snd (fst (PageApiRun.handleProcess case_id w)))) = c /\
     More.statuses
       (PageApi.tasks
          (Async.state (snd (fst (PageApiRun.handleProcess case_id w)))))
     = [ ("0", StatusCard.completed); ("1", StatusCard.completed);
         ("2", StatusCard.completed); ("3", StatusCard.completed) ] /\
     PageApi.resultsSection
       (Async.state (snd (fst (PageApiRun.handleProcess case_id w)))) = true /\
     PageApi.currentStep
       (Async.state (snd (fst (PageApiRun.handleProcess case_id w))))
     = "🎉 Pipeline automático concluído!") \/
  (exists e,
     PageApi.currentStep
       (Async.state (snd (fst (PageApiRun.handleProcess case_id w))))
     = "Erro: " +++ Js.message e /\
     PageApi.tasks
       (Async.state (snd (fst (PageApiRun.handleProcess case_id w))))
     = TaskList.update "0" StatusCard.running (Some "Upload em andamento...")
         PageApi.newTasks /\
     PageApi.caseId
       (Async.state (snd (fst (PageApiRun.handleProcess case_id w))))
     = PageApi.caseId (Async.state w) /\
     StatusCard.percent
       (PageApi.tasks
          (Async.state (snd (fst (PageApiRun.handleProcess case_id w)))))
     = Some 0%Z).
Proof.
  rewrite handleProcess_with.
  destruct (More.uploadResult case_id w) as [e|c] eqn:Hres.
  - right. exists e.
    destruct (More.uploadSent w); repeat split; vm_compute; reflexivity.
  - left. exists c.
    assert (Htruthy : Js.truthy c = true).
    { unfold More.uploadResult in Hres.
      destruct (PageApi.uploadedFiles (Async.state w)); [discriminate|].
      destruct (More.uploadAttempt case_id _) as [e|[c'|]]; try discriminate.
      destruct (Js.truthy c') eqn:Ht; [|discriminate].
      injection Hres as <-. exact Ht. }
    split; [exact Htruthy|].
    destruct (More.uploadSent w);
      (split; [reflexivity|]); (split; [reflexivity|]);
      (split; [|reflexivity]);
      unfold PageApi.resultsSection;
      (apply andb_true_intro; split; [vm_compute; reflexivity|]);
      match goal with
      | |- Js.truthy ?x = true =>
          replace x with c by (vm_compute; reflexivity)
      end;
      exact Htruthy.
Qed.

Section Reports.

Import Async StatusCard.

Lemma startsWith_append (sub post : string) :
  JsString.startsWith sub (sub +++ post) = true.
Proof.
  induction sub as [|a sub IH]; simpl; [reflexivity|].
  rewrite Ascii.eqb_refl. exact IH.
Qed.

(** [includes] finds an occurrence wherever it is. *)
Lemma includes_occurrence (pre sub post : string) :
  JsString.includes sub (pre +++ sub +++ post) = true.
Proof.
  induction pre as [|c pre IH].
  - simpl. destruct (sub +++ post) eqn:E.
    + simpl. rewrite <- E, startsWith_append. reflexivity.
    + simpl JsString.includes. rewrite <- E, startsWith_append. reflexivity.
  - simpl. rewrite IH. apply orb_true_r.
Qed.

End Reports.



(** X19: a successful upload.  With some file retained, an ok answer
    whose body carries a non-empty case id makes [handleProcess] store
    that id, complete the task "0" with "Arquivos enviados! Case ID: "
    and the id, and then complete the three other tasks by its timers
    alone: one request is sent, that of the upload, followed by timers
    of 60, 60 and 30 seconds; at the end the card shows 100% and the
    results section is rendered. *)
Theorem upload_success
    (case_id : Async.Result -> option string)
    (w : Async.World PageApi.State)
    (r : Async.Response) (res : Async.Result) (c : string) :
  PageApi.uploadedFiles (Async.state w) <> [] ->
  Async.network w (Async.calls w) = Async.Resolved r ->
  Async.ok r = true -> Async.json r = inr res ->
  case_id res = Some c -> Js.truthy c = true ->
  PageApi.caseId
    (Async.state (snd (fst (PageApiRun.handleProcess case_id w)))) = c /\
  PageApi.tasks
    (Async.state (snd (fst (PageApiRun.handleProcess case_id w))))
  = [ {| StatusCard.id := "0"; StatusCard.name := "Upload de arquivos";
         StatusCard.status := StatusCard.completed;
         StatusCard.message := Some ("Arquivos enviados! Case ID: " +++ c) |};
      {| StatusCard.id := "1"; StatusCard.name := "Transcrição de áudio";
         StatusCard.status := StatusCard.completed;
         StatusCard.message := Some "Transcrição concluída" |};
      {| StatusCard.id := "2"; StatusCard.name := "Processamento com Gemini";
         StatusCard.status := StatusCard.completed;
         StatusCard.message := Some "Processamento Gemini concluído" |};
      {| StatusCard.id := "3"; StatusCard.name := "Geração da sentença";
         StatusCard.status := StatusCard.completed;
         StatusCard.message := Some "Sentença gerada" |} ] /\
  Async.invoked (snd (PageApiRun.handleProcess case_id w))
  = [ Async.Fetch "http://localhost:8000/upload-caso";
      Async.Timeout 60000; Async.Timeout 60000; Async.Timeout 30000 ] /\
  StatusCard.percent
    (PageApi.tasks
       (Async.state (snd (fst (PageApiRun.handleProcess case_id w)))))
  = Some 100%Z /\
  PageApi.resultsSection
    (Async.state (snd (fst (PageApiRun.handleProcess case_id w)))) = true.
Proof.
  intros Hfiles Hnet Hok Hjson Hid Htruthy.
  rewrite handleProcess_with.
  unfold More.uploadSent, More.uploadResult, More.uploadAttempt.
  destruct (PageApi.uploadedFiles (Async.state w)) as [|f files];
    [congruence|].
  cbn [List.length Nat.eqb negb].
  rewrite Hnet, Hok, Hjson, Hid, Htruthy.
  split; [reflexivity|]. split; [reflexivity|]. split; [reflexivity|].
  split; [vm_compute; reflexivity|].
  unfold PageApi.resultsSection.
  apply andb_true_intro. split; [vm_compute; reflexivity|].
  match goal with
  | |- Js.truthy ?x = true => replace x with c by (vm_compute; reflexivity)
  end.
  exact Htruthy.
Qed.

(** The backend answers the upload of one document with the case id
    "abc" (read here from the field [message] of the body). *)
Lemma upload_success_witness :
  let w := {| Async.state :=
                {| PageApi.uploadedFiles :=
                     [ {| UploadZone.file := Example.firstDocument;
                          UploadZone.type := UploadZone.processo;
                          UploadZone.id := "id1" |} ];
                   PageApi.isProcessing := false;
                   PageApi.tasks := [];
                   PageApi.currentStep := "";
                   PageApi.caseId := "" |};
              Async.calls := 0;
              Async.network :=
                fun _ => Example.answer {| Async.message := Some "abc" |} |} in
  PageApi.caseId
    (Async.state (snd (fst (PageApiRun.handleProcess Async.message w))))
  = "abc" /\
  PageApi.resultsSection
    (Async.state (snd (fst (PageApiRun.handleProcess Async.message w)))) = true.
Proof.
  intros w.
  destruct (upload_success Async.message w
              {| Async.ok := true; Async.status := 200;
                 Async.statusText := "OK"; Async.text := inr "";
                 Async.json := inr {| Async.message := Some "abc" |} |}
              {| Async.message := Some "abc" |} "abc"
              ltac:(discriminate) eq_refl eq_refl eq_refl eq_refl eq_refl)
    as (Hid & _ & _ & _ & Hres).
  split; [exact Hid|exact Hres].
Defined.

(* ===================================================================== *)
(** * Further properties: the button *)
(* ===================================================================== *)

(** X20: the button guards the run.  A click while the button is
    disabled, or while its own flag says a run is in progress, does
    nothing at all.  Otherwise the click commits the flag, runs the
    function of the page once, and commits the flag off again whether
    that function returned or threw; the outcome of the click is the
    outcome of the function, an error included. *)
Theorem button_guards_the_run
    {P : Type} (disabled : bool) (onProcess : Async.M P unit)
    (w : Async.World (ProcessButton.State P)) :
  (disabled || ProcessButton.isProcessing (Async.state w) = true ->
   ProcessButton.handleClick disabled onProcess w = (Async.Returned tt, w, [])) /\
  (disabled || ProcessButton.isProcessing (Async.state w) = false ->
   forall r w1 t,
     onProcess {| Async.state := ProcessButton.page (Async.state w);
                  Async.calls := Async.calls w;
                  Async.network := Async.network w |} = (r, w1, t) ->
     ProcessButton.handleClick disabled onProcess w
     = (r,
        {| Async.state :=
             {| ProcessButton.isProcessing := false;
                ProcessButton.page := Async.state w1 |};
           Async.calls := Async.calls w1;
           Async.network := Async.network w1 |},
        Async.Commit {| ProcessButton.isProcessing := true;
                        ProcessButton.page := ProcessButton.page (Async.state w) |}
        :: map (ProcessButton.withButton true) t
        ++ [ Async.Commit {| ProcessButton.isProcessing := false;
                             ProcessButton.page := Async.state w1 |} ])).
Proof.
  unfold ProcessButton.handleClick.
  rewrite (bind_returned _ _ w w (Async.state w) [] eq_refl).
  split.
  - intros ->. reflexivity.
  - intros -> r w1 t Hrun.
    unfold Async.bind, ProcessButton.setIsProcessing, Async.setState,
      Async.try_finally, ProcessButton.onPage.
    cbn [Async.state Async.calls Async.network ProcessButton.page
         ProcessButton.isProcessing].
    rewrite Hrun.
    cbn [Async.state Async.calls Async.network ProcessButton.page
         ProcessButton.isProcessing app].
    destruct r; reflexivity.
Qed.

(** The button of the timer-driven page, enabled and idle, clicked
    once: the run of the page goes through and the button is idle
    again; clicked while disabled, nothing happens. *)
Lemma button_guards_the_run_witness :
  let w := {| Async.state :=
                {| ProcessButton.isProcessing := false;
                   ProcessButton.page := Async.state Example.simStart |};
              Async.calls := 0;
              Async.network := Example.downFrom 0 |} in
  ProcessButton.handleClick true PageSim.handleProcess w
  = (Async.Returned tt, w, []) /\
  fst (fst (ProcessButton.handleClick false PageSim.handleProcess w))
  = Async.Returned tt /\
  ProcessButton.isProcessing
    (Async.state
       (snd (fst (ProcessButton.handleClick false PageSim.handleProcess w))))
  = false.
Proof.
  intros w.
  destruct (button_guards_the_run true PageSim.handleProcess w) as [Hoff _].
  destruct (button_guards_the_run false PageSim.handleProcess w) as [_ Hon].
  split; [exact (Hoff eq_refl)|].
  assert (Hr : fst (fst (PageSim.handleProcess
                           {| Async.state := ProcessButton.page (Async.state w);
                              Async.calls := Async.calls w;
                              Async.network := Async.network w |}))
               = Async.Returned tt) by (vm_compute; reflexivity).
  specialize (Hon eq_refl).
  destruct (PageSim.handleProcess
              {| Async.state := ProcessButton.page (Async.state w);
                 Async.calls := Async.calls w;
                 Async.network := Async.network w |})
    as [[r w1] t].
  rewrite (Hon r w1 t eq_refl).
  split; [exact Hr|reflexivity].
Defined.

(* ===================================================================== *)
(** * Further properties: the badge of a task *)
(* ===================================================================== *)

(** X21: the badge identifies the status.  [getStatusText] gives the
    four statuses four different texts: two tasks whose badges read
    the same have the same status. *)
Theorem badge_identifies_status (a b : StatusCard.TaskStatus) :
  StatusCard.getStatusText a = StatusCard.getStatusText b -> a = b.
Proof.
  destruct a, b; intros H; try reflexivity; discriminate H.
Qed.

Lemma badge_identifies_status_witness :
  StatusCard.running = StatusCard.running.
Proof.
  exact (badge_identifies_status StatusCard.running StatusCard.running eq_refl).
Defined.
